(** * rn-nevis: the bridge between the application runtime and the native
    authentication SDK

    A shallow embedding of the TypeScript sources of the bridge: the
    out-of-band authentication operation (fluent setters and [execute]),
    the fingerprint error converter, the local-device-information message
    decoder and the [Aaid] constants, together with the properties the
    specification states about them. *)

From Stdlib Require Import ZArith.
From stdpp Require Import base option strings list gmap pretty.

Local Open Scope string_scope.
Local Open Scope list_scope.
Local Open Scope nat_scope.

(** ** JavaScript values and completions *)

Module Js.

#[local] Set Warnings "-register-all".

(** The values that cross the native boundary.  Numbers that occur in
    bridge payloads are integers. *)
Inductive JsValue : Type :=
| JsUndefined
| JsNull
| JsBoolean (b : bool)
| JsNumber (n : Z)
| JsString (s : string)
| JsObject (props : list (string * JsValue)).

(** The outcome of evaluating a piece of code: it returns a value or it
    throws one. *)
Inductive Completion (A : Type) : Type :=
| Normal (a : A)
| Throw (e : JsValue).
Arguments Normal {A} a.
Arguments Throw {A} e.

#[export] Instance Completion_ret : MRet Completion := @Normal.
#[export] Instance Completion_bind : MBind Completion := λ A B f c,
  match c with
  | Normal a => f a
  | Throw e => Throw e
  end.

#[export] Instance Completion_fmap : FMap Completion := λ A B f c,
  match c with
  | Normal a => Normal (f a)
  | Throw e => Throw e
  end.

Definition TypeError : JsValue :=
  JsObject [("name", JsString "TypeError")].

Fixpoint assoc (k : string) (props : list (string * JsValue)) : option JsValue :=
  match props with
  | [] => None
  | (k', v) :: rest => if decide (k = k') then Some v else assoc k rest
  end.

(** [v.k]: reading a property of [undefined] or [null] throws; an object
    yields the property or [undefined]; the primitives carry none of the
    properties the bridge reads. *)
Definition get (v : JsValue) (k : string) : Completion JsValue :=
  match v with
  | JsUndefined | JsNull => Throw TypeError
  | JsObject props => Normal (default JsUndefined (assoc k props))
  | _ => Normal JsUndefined
  end.

(** Truthiness, as used by [&&]. *)
Definition truthy (v : JsValue) : bool :=
  match v with
  | JsUndefined | JsNull => false
  | JsBoolean b => b
  | JsNumber n => negb (n =? 0)%Z
  | JsString s => negb (String.eqb s "")
  | JsObject _ => true
  end.

(** [arr[i]] for a number [i]: [undefined] (here [None]) out of range. *)
Definition index {A} (arr : list A) (i : Z) : option A :=
  if decide (0 ≤ i)%Z then arr !! Z.to_nat i else None.

End Js.
Import Js.

(** ** Aaid *)

(** [Platform.OS] of the host runtime. *)
Inductive PlatformOS := ios | android | macos | windows | web.

(** [Platform.select] of react-native, called with the keys [ios],
    [android] and [default]: the entry of the running platform if it is one
    of the two, the default one otherwise. *)
Definition Platform_select {A} (OS : PlatformOS) (on_ios on_android on_default : A) : A :=
  match OS with
  | ios => on_ios
  | android => on_android
  | _ => on_default
  end.

Module Aaid.

Record Aaid := new { name : string; ordinal : Z }.

Definition aaidAndroid : list string :=
  ["F1D0#0001"; "F1D0#0002"; "F1D0#0003"; "F1D0#0004"].
Definition aaidiOS : list string :=
  ["F1D0#1001"; "F1D0#1002"; "F1D0#1003"; "F1D0#1004"].

Definition PIN : Aaid := new "PIN" 0.
Definition FINGERPRINT : Aaid := new "FINGERPRINT" 1.
Definition BIOMETRIC : Aaid := new "BIOMETRIC" 2.
Definition DEVICE_PASSCODE : Aaid := new "DEVICE_PASSCODE" 3.

(** The constructor is private: these are all the instances there are. *)
Definition constants : list Aaid := [PIN; FINGERPRINT; BIOMETRIC; DEVICE_PASSCODE].

(** [None] stands for [undefined], what an index out of range yields. *)
Definition rawValue (OS : PlatformOS) (this : Aaid) : option string :=
  Platform_select OS
    (Js.index aaidiOS (ordinal this))
    (Js.index aaidAndroid (ordinal this))
    (Some "").

End Aaid.

(** ** Error variants and converters *)

Module AuthCloudApiUserAlreadyRegisteredInAnotherServerError.

(** [constructor(description: string, cause?: string)] assigns both
    fields. *)
Record t := new { description : string; cause : option string }.

End AuthCloudApiUserAlreadyRegisteredInAnotherServerError.

Module FingerprintUserVerificationError.

(** Modelled from the spec: the class FingerprintUserVerificationError is
    not among the sources; an error variant carries a description and an
    optional cause, stored as passed to the constructor like the sibling
    error classes do, here with the message as third argument. *)
Record t := new { description : JsValue; cause : JsValue; message : JsValue }.

End FingerprintUserVerificationError.

Module FingerprintUserVerificationErrorConverter.

(** [convert] of the converter constructed on the native [error]. *)
Definition convert (error : JsValue) : Completion FingerprintUserVerificationError.t :=
  description ← Js.get error "description";
  cause ← Js.get error "cause";
  message ← Js.get error "message";
  mret (FingerprintUserVerificationError.new description cause message).

End FingerprintUserVerificationErrorConverter.

(** ** Incoming messages *)

Module LocalDeviceInformationMessage.

(** The value of [data && f(data)]: the falsy [data] itself, or what [f]
    made of it. *)
Inductive Guarded (A : Type) : Type :=
| Falsy (data : JsValue)
| Converted (a : A).
Arguments Falsy {A} data.
Arguments Converted {A} a.

Section FromJson.

(** [DeviceInformation.fromJson], imported from localData. *)
Context {DeviceInformation : Type}.
Context (DeviceInformation_fromJson : JsValue → Completion DeviceInformation).

Record t := new {
  operationId : JsValue;
  deviceInformation : Guarded DeviceInformation
}.

Definition fromJson (json : JsValue) : Completion t :=
  operationId ← Js.get json "operationId";
  data ← Js.get json "deviceInformation";
  deviceInformation ←
    (if truthy data
     then Converted <$> DeviceInformation_fromJson data
     else mret (Falsy data));
  mret (new operationId deviceInformation).

End FromJson.

Arguments t : clear implicits.

End LocalDeviceInformationMessage.

(** ** What the out-of-band authentication imports

    The selector and verifier classes, the authorization provider, the
    operation error and the success message with its decoder are imported by
    the operation from other modules; they are taken as given.

    Modelled from the spec: the converter of operation errors is not among
    the sources; it never fails, it always produces a typed error. *)
Class Collaborators := {
  AccountSelector : Type;
  AuthenticatorSelector : Type;
  PinUserVerifier : Type;
  BiometricUserVerifier : Type;
  DevicePasscodeUserVerifier : Type;
  FingerprintUserVerifier : Type;
  AuthorizationProvider : Type;
  OperationError : Type;
  RequestHeaders : Type;
  OnSuccessMessage : Type;
  authorizationProvider : OnSuccessMessage → option AuthorizationProvider;
  OnSuccessMessage_fromJson : JsValue → Completion OnSuccessMessage;
  OperationErrorConverter_convert : JsValue → OperationError
}.

(** [x !== undefined] for an optional field. *)
Definition defined {A} (x : option A) : bool :=
  match x with
  | Some _ => true
  | None => false
  end.

Module UserInteractionPlatformOperationImpl.
Section Fields.
Context `{!Collaborators}.

(** Modelled from the spec: the class is not among the sources; a cached
    operation holds the operation identifier and the handlers configured
    by the caller.  The fields are in the order of the constructor call in
    [execute]. *)
Record t := new {
  operationId : string;
  authenticatorSelector : option AuthenticatorSelector;
  accountSelector : option AccountSelector;
  biometricUserVerifier : option BiometricUserVerifier;
  devicePasscodeUserVerifier : option DevicePasscodeUserVerifier;
  fingerprintUserVerifier : option FingerprintUserVerifier;
  pinUserVerifier : option PinUserVerifier
}.

End Fields.
End UserInteractionPlatformOperationImpl.

Module OutOfBandAuthenticationMessage.
Section Fields.
Context `{!Collaborators}.

(** Modelled from the spec: the class is not among the sources; the request
    carries the operation identifier, a presence flag for each optional
    handler, selector and callback, and the request headers.  The fields are
    in the order of the constructor call in [execute]; the fourth is the
    one that call fixes to [false]. *)
Record t := new {
  operationId : string;
  accountSelectorSet : bool;
  authenticatorSelectorSet : bool;
  fixedFlag : bool;
  pinVerifierSet : bool;
  biometricVerifierSet : bool;
  devicePasscodeVerifierSet : bool;
  fingerprintVerifierSet : bool;
  onSuccessSet : bool;
  onErrorSet : bool;
  httpRequestHeaders : option RequestHeaders
}.

(** The flags that announce a capability to the native side. *)
Definition capabilityFlags (m : t) : list bool :=
  [accountSelectorSet m; authenticatorSelectorSet m; fixedFlag m;
   pinVerifierSet m; biometricVerifierSet m; devicePasscodeVerifierSet m;
   fingerprintVerifierSet m].

End Fields.
End OutOfBandAuthenticationMessage.

(** ** The process-wide state and the code that runs on it *)

Module Bridge.

(** A reference to an object of the runtime. *)
Definition Ref := positive.

(** How the promise of a native call settles. *)
Inductive Settlement : Type :=
| Fulfilled (data : JsValue)
| Rejected (error : JsValue).

Section World.
Context `{!Collaborators}.

(** What the bridge does that can be observed, in the order it does it. *)
Inductive Event : Type :=
| CachePut (operation : UserInteractionPlatformOperationImpl.t)
| CacheDelete (operationId : string)
| ListenerStart
| ListenerStop
| OobAuthenticate (message : OutOfBandAuthenticationMessage.t)
| OnSuccess (authorizationProvider : option AuthorizationProvider)
| OnError (error : OperationError).

(** The objects of class [Obj] on the heap, the two singletons (the
    operations of the cache and the subscription of the listener) and the
    events so far. *)
Record World (Obj : Type) := mkWorld {
  objects : gmap Ref Obj;
  operations : gmap string UserInteractionPlatformOperationImpl.t;
  listening : bool;
  trace : list Event
}.
Arguments mkWorld {Obj}.
Arguments objects {Obj}.
Arguments operations {Obj}.
Arguments listening {Obj}.
Arguments trace {Obj}.

(** Code of the bridge: it changes the world and returns or throws. *)
Definition M (Obj A : Type) : Type := World Obj → World Obj * Completion A.

Context {Obj : Type}.

#[export] Instance M_ret : MRet (M Obj) := λ A a w, (w, Normal a).
#[export] Instance M_bind : MBind (M Obj) := λ A B f m w,
  match m w with
  | (w', Normal a) => f a w'
  | (w', Throw e) => (w', Throw e)
  end.

Definition lift {A} (c : Completion A) : M Obj A := λ w, (w, c).

Definition emit (e : Event) : M Obj unit := λ w,
  (mkWorld (objects w) (operations w) (listening w) (trace w ++ [e]), Normal ()).

(** [this.field] reads the object [this] refers to. *)
Definition deref (this : Ref) : M Obj Obj := λ w,
  (w, match objects w !! this with
      | Some o => Normal o
      | None => Throw TypeError
      end).

Definition assign (this : Ref) (o : Obj) : M Obj unit := λ w,
  (mkWorld (<[this := o]> (objects w)) (operations w) (listening w) (trace w),
   Normal ()).

Definition alloc (o : Obj) : M Obj Ref := λ w,
  let this := fresh (dom (objects w)) in
  (mkWorld (<[this := o]> (objects w)) (operations w) (listening w) (trace w),
   Normal this).

(** [promise.then(onFulfilled).catch(onRejected)]: [onRejected] receives the
    rejection of the promise and also what [onFulfilled] throws. *)
Definition then_catch {A} (settlement : Settlement)
    (onFulfilled : JsValue → M Obj A) (onRejected : JsValue → M Obj A) : M Obj A :=
  λ w,
    match settlement with
    | Fulfilled data =>
        match onFulfilled data w with
        | (w', Throw e) => onRejected e w'
        | done => done
        end
    | Rejected error => onRejected error w
    end.

(** [callback?.(a)]: nothing when the callback is undefined. *)
Definition optional_call {A} (callback : option (A → Completion unit))
    (ev : A → Event) (a : A) : M Obj unit :=
  match callback with
  | Some f => emit (ev a);; lift (f a)
  | None => mret ()
  end.

End World.

Arguments M {_} Obj A.
Arguments World {_} Obj.
Arguments Event {_}.
Arguments mkWorld {_ Obj}.
Arguments objects {_ Obj}.
Arguments operations {_ Obj}.
Arguments listening {_ Obj}.
Arguments trace {_ Obj}.

End Bridge.
Import (hints) Bridge.

Module PlatformOperationCache.
Section Cache.
Context `{!Collaborators} {Obj : Type}.
Import Bridge.

(** Modelled from the spec: the cache is not among the sources.  [put]
    inserts (or replaces) the entry keyed by the operation's identifier;
    it always succeeds. *)
Definition put (operation : UserInteractionPlatformOperationImpl.t) : M Obj unit := λ w,
  (mkWorld (objects w)
     (<[UserInteractionPlatformOperationImpl.operationId operation := operation]> (operations w))
     (listening w) (trace w ++ [CachePut operation]),
   Normal ()).

(** Modelled from the spec: [get] returns the cached operation for the
    identifier, or nothing if none exists. *)
Definition get (operationId : string)
  : M Obj (option UserInteractionPlatformOperationImpl.t) := λ w,
  (w, Normal (operations w !! operationId)).

(** Modelled from the spec: [delete] removes the entry if present and does
    nothing otherwise. *)
Definition delete (operationId : string) : M Obj unit := λ w,
  (mkWorld (objects w) (base.delete operationId (operations w))
     (listening w) (trace w ++ [CacheDelete operationId]),
   Normal ()).

End Cache.
End PlatformOperationCache.

Module NativeEventListener.
Section Listener.
Context `{!Collaborators} {Obj : Type}.
Import Bridge.

(** Modelled from the spec: the listener is not among the sources.
    [start] does nothing if already subscribed and subscribes otherwise. *)
Definition start : M Obj unit := λ w,
  (mkWorld (objects w) (operations w)
     (if listening w then listening w else true) (trace w ++ [ListenerStart]),
   Normal ()).

(** Modelled from the spec: [stop] unsubscribes if subscribed and does
    nothing otherwise. *)
Definition stop : M Obj unit := λ w,
  (mkWorld (objects w) (operations w)
     (if listening w then false else listening w) (trace w ++ [ListenerStop]),
   Normal ()).

End Listener.
End NativeEventListener.

(** ** The out-of-band authentication operation *)

Module OutOfBandAuthenticationImpl.
Section Class.
Context `{!Collaborators}.
Import Bridge.

(** A callback of the caller: it is invoked with an argument and returns or
    throws. *)
Definition Callback (A : Type) : Type := A → Completion unit.

(** The fields of an instance; [httpRequestHeaders] is inherited from
    [HttpOperationImpl]. *)
Record t := mk {
  operationId : string;
  _accountSelector : option AccountSelector;
  _authenticatorSelector : option AuthenticatorSelector;
  _pinUserVerifier : option PinUserVerifier;
  _biometricUserVerifier : option BiometricUserVerifier;
  _devicePasscodeUserVerifier : option DevicePasscodeUserVerifier;
  _fingerprintUserVerifier : option FingerprintUserVerifier;
  _onSuccess : option (Callback (option AuthorizationProvider));
  _onError : option (Callback OperationError);
  httpRequestHeaders : option RequestHeaders
}.

Definition new (operationId : string) : M t Ref :=
  alloc (mk operationId None None None None None None None None None).

Definition accountSelector (this : Ref) (accountSelector : AccountSelector) : M t Ref :=
  o ← deref this;
  assign this
    (mk (operationId o) (Some accountSelector) (_authenticatorSelector o)
       (_pinUserVerifier o) (_biometricUserVerifier o)
       (_devicePasscodeUserVerifier o) (_fingerprintUserVerifier o)
       (_onSuccess o) (_onError o) (httpRequestHeaders o));;
  mret this.

Definition authenticatorSelector (this : Ref)
    (authenticatorSelector : AuthenticatorSelector) : M t Ref :=
  o ← deref this;
  assign this
    (mk (operationId o) (_accountSelector o) (Some authenticatorSelector)
       (_pinUserVerifier o) (_biometricUserVerifier o)
       (_devicePasscodeUserVerifier o) (_fingerprintUserVerifier o)
       (_onSuccess o) (_onError o) (httpRequestHeaders o));;
  mret this.

Definition pinUserVerifier (this : Ref) (pinUserVerifier : PinUserVerifier) : M t Ref :=
  o ← deref this;
  assign this
    (mk (operationId o) (_accountSelector o) (_authenticatorSelector o)
       (Some pinUserVerifier) (_biometricUserVerifier o)
       (_devicePasscodeUserVerifier o) (_fingerprintUserVerifier o)
       (_onSuccess o) (_onError o) (httpRequestHeaders o));;
  mret this.

Definition biometricUserVerifier (this : Ref)
    (biometricUserVerifier : BiometricUserVerifier) : M t Ref :=
  o ← deref this;
  assign this
    (mk (operationId o) (_accountSelector o) (_authenticatorSelector o)
       (_pinUserVerifier o) (Some biometricUserVerifier)
       (_devicePasscodeUserVerifier o) (_fingerprintUserVerifier o)
       (_onSuccess o) (_onError o) (httpRequestHeaders o));;
  mret this.

Definition devicePasscodeUserVerifier (this : Ref)
    (devicePasscodeUserVerifier : DevicePasscodeUserVerifier) : M t Ref :=
  o ← deref this;
  assign this
    (mk (operationId o) (_accountSelector o) (_authenticatorSelector o)
       (_pinUserVerifier o) (_biometricUserVerifier o)
       (Some devicePasscodeUserVerifier) (_fingerprintUserVerifier o)
       (_onSuccess o) (_onError o) (httpRequestHeaders o));;
  mret this.

Definition fingerprintUserVerifier (this : Ref)
    (fingerprintUserVerifier : FingerprintUserVerifier) : M t Ref :=
  o ← deref this;
  assign this
    (mk (operationId o) (_accountSelector o) (_authenticatorSelector o)
       (_pinUserVerifier o) (_biometricUserVerifier o)
       (_devicePasscodeUserVerifier o) (Some fingerprintUserVerifier)
       (_onSuccess o) (_onError o) (httpRequestHeaders o));;
  mret this.

Definition onSuccess (this : Ref)
    (onSuccess : Callback (option AuthorizationProvider)) : M t Ref :=
  o ← deref this;
  assign this
    (mk (operationId o) (_accountSelector o) (_authenticatorSelector o)
       (_pinUserVerifier o) (_biometricUserVerifier o)
       (_devicePasscodeUserVerifier o) (_fingerprintUserVerifier o)
       (Some onSuccess) (_onError o) (httpRequestHeaders o));;
  mret this.

Definition onError (this : Ref) (onError : Callback OperationError) : M t Ref :=
  o ← deref this;
  assign this
    (mk (operationId o) (_accountSelector o) (_authenticatorSelector o)
       (_pinUserVerifier o) (_biometricUserVerifier o)
       (_devicePasscodeUserVerifier o) (_fingerprintUserVerifier o)
       (_onSuccess o) (Some onError) (httpRequestHeaders o));;
  mret this.

(** The local function [finish] of [execute]. *)
Definition finish (this : Ref) : M t unit :=
  NativeEventListener.stop;;
  o ← deref this;
  PlatformOperationCache.delete (operationId o).

(** The handler [execute] passes to [then]. *)
Definition onFulfilled (this : Ref) (data : JsValue) : M t unit :=
  finish this;;
  successMessage ← lift (OnSuccessMessage_fromJson data);
  o ← deref this;
  optional_call (_onSuccess o) OnSuccess (authorizationProvider successMessage).

(** The handler [execute] passes to [catch]. *)
Definition onRejected (this : Ref) (error : JsValue) : M t unit :=
  finish this;;
  let operationError := OperationErrorConverter_convert error in
  o ← deref this;
  optional_call (_onError o) OnError operationError.

(** What [execute] chains on the promise of the native call. *)
Definition settle (this : Ref) (settlement : Settlement) : M t unit :=
  then_catch settlement (onFulfilled this) (onRejected this).

(** [execute], given how the native [oobAuthenticate] settles the promise
    it returns for a message. *)
Definition execute (this : Ref)
    (oobAuthenticate : OutOfBandAuthenticationMessage.t → Settlement) : M t unit :=
  o ← deref this;
  let operation :=
    UserInteractionPlatformOperationImpl.new
      (operationId o)
      (_authenticatorSelector o)
      (_accountSelector o)
      (_biometricUserVerifier o)
      (_devicePasscodeUserVerifier o)
      (_fingerprintUserVerifier o)
      (_pinUserVerifier o) in
  PlatformOperationCache.put operation;;
  let message :=
    OutOfBandAuthenticationMessage.new
      (operationId o)
      (defined (_accountSelector o))
      (defined (_authenticatorSelector o))
      false
      (defined (_pinUserVerifier o))
      (defined (_biometricUserVerifier o))
      (defined (_devicePasscodeUserVerifier o))
      (defined (_fingerprintUserVerifier o))
      (defined (_onSuccess o))
      (defined (_onError o))
      (httpRequestHeaders o) in
  emit (OobAuthenticate message);;
  settle this (oobAuthenticate message).

(** The operation [execute] puts in the cache for an instance with the
    fields [o]. *)
Definition cached (o : t) : UserInteractionPlatformOperationImpl.t :=
  UserInteractionPlatformOperationImpl.new (operationId o) (_authenticatorSelector o)
    (_accountSelector o) (_biometricUserVerifier o) (_devicePasscodeUserVerifier o)
    (_fingerprintUserVerifier o) (_pinUserVerifier o).

(** The message [execute] sends for an instance with the fields [o]. *)
Definition encoded (o : t) : OutOfBandAuthenticationMessage.t :=
  OutOfBandAuthenticationMessage.new (operationId o)
    (defined (_accountSelector o)) (defined (_authenticatorSelector o)) false
    (defined (_pinUserVerifier o)) (defined (_biometricUserVerifier o))
    (defined (_devicePasscodeUserVerifier o)) (defined (_fingerprintUserVerifier o))
    (defined (_onSuccess o)) (defined (_onError o)) (httpRequestHeaders o).

(** The world [w] after [finish] ran for the instance, followed by the
    events [rest]. *)
Definition finished (w : World t) (o : t) (rest : list Event) : World t :=
  mkWorld (objects w) (delete (operationId o) (operations w)) false
    (trace w ++ ListenerStop :: CacheDelete (operationId o) :: rest).

(** *** The fields and the setters, named *)

Inductive Field : Type :=
| F_operationId
| F_accountSelector
| F_authenticatorSelector
| F_pinUserVerifier
| F_biometricUserVerifier
| F_devicePasscodeUserVerifier
| F_fingerprintUserVerifier
| F_onSuccess
| F_onError
| F_httpRequestHeaders.

(** Two instances hold the same value in a field. *)
Definition agree (f : Field) (o o' : t) : Prop :=
  match f with
  | F_operationId => operationId o = operationId o'
  | F_accountSelector => _accountSelector o = _accountSelector o'
  | F_authenticatorSelector => _authenticatorSelector o = _authenticatorSelector o'
  | F_pinUserVerifier => _pinUserVerifier o = _pinUserVerifier o'
  | F_biometricUserVerifier => _biometricUserVerifier o = _biometricUserVerifier o'
  | F_devicePasscodeUserVerifier =>
      _devicePasscodeUserVerifier o = _devicePasscodeUserVerifier o'
  | F_fingerprintUserVerifier => _fingerprintUserVerifier o = _fingerprintUserVerifier o'
  | F_onSuccess => _onSuccess o = _onSuccess o'
  | F_onError => _onError o = _onError o'
  | F_httpRequestHeaders => httpRequestHeaders o = httpRequestHeaders o'
  end.

(** A call of one of the eight setters with its argument. *)
Inductive SetterCall : Type :=
| call_accountSelector (v : AccountSelector)
| call_authenticatorSelector (v : AuthenticatorSelector)
| call_pinUserVerifier (v : PinUserVerifier)
| call_biometricUserVerifier (v : BiometricUserVerifier)
| call_devicePasscodeUserVerifier (v : DevicePasscodeUserVerifier)
| call_fingerprintUserVerifier (v : FingerprintUserVerifier)
| call_onSuccess (v : Callback (option AuthorizationProvider))
| call_onError (v : Callback OperationError).

Definition invoke (c : SetterCall) (this : Ref) : M t Ref :=
  match c with
  | call_accountSelector v => accountSelector this v
  | call_authenticatorSelector v => authenticatorSelector this v
  | call_pinUserVerifier v => pinUserVerifier this v
  | call_biometricUserVerifier v => biometricUserVerifier this v
  | call_devicePasscodeUserVerifier v => devicePasscodeUserVerifier this v
  | call_fingerprintUserVerifier v => fingerprintUserVerifier this v
  | call_onSuccess v => onSuccess this v
  | call_onError v => onError this v
  end.

(** The field a setter is named after. *)
Definition own_field (c : SetterCall) : Field :=
  match c with
  | call_accountSelector _ => F_accountSelector
  | call_authenticatorSelector _ => F_authenticatorSelector
  | call_pinUserVerifier _ => F_pinUserVerifier
  | call_biometricUserVerifier _ => F_biometricUserVerifier
  | call_devicePasscodeUserVerifier _ => F_devicePasscodeUserVerifier
  | call_fingerprintUserVerifier _ => F_fingerprintUserVerifier
  | call_onSuccess _ => F_onSuccess
  | call_onError _ => F_onError
  end.

(** The instance holds the argument of the call in the setter's field. *)
Definition holds_argument (c : SetterCall) (o : t) : Prop :=
  match c with
  | call_accountSelector v => _accountSelector o = Some v
  | call_authenticatorSelector v => _authenticatorSelector o = Some v
  | call_pinUserVerifier v => _pinUserVerifier o = Some v
  | call_biometricUserVerifier v => _biometricUserVerifier o = Some v
  | call_devicePasscodeUserVerifier v => _devicePasscodeUserVerifier o = Some v
  | call_fingerprintUserVerifier v => _fingerprintUserVerifier o = Some v
  | call_onSuccess v => _onSuccess o = Some v
  | call_onError v => _onError o = Some v
  end.

End Class.
End OutOfBandAuthenticationImpl.

(** ** Reading a trace *)

Module Trace.
Section Trace.
Context `{!Collaborators}.
Import Bridge.

Definition is_OnSuccess (e : Event) : bool :=
  match e with
  | OnSuccess _ => true
  | _ => false
  end.

Definition is_OnError (e : Event) : bool :=
  match e with
  | OnError _ => true
  | _ => false
  end.

Definition is_callback (e : Event) : bool := is_OnSuccess e || is_OnError e.

Definition is_OobAuthenticate (e : Event) : bool :=
  match e with
  | OobAuthenticate _ => true
  | _ => false
  end.

(** How many events of a kind a trace holds. *)
Fixpoint count (kind : Event → bool) (tr : list Event) : nat :=
  match tr with
  | [] => 0
  | e :: tr => (if kind e then 1 else 0) + count kind tr
  end.

(** Some callback was invoked before the [i]-th event. *)
Definition callback_before (tr : list Event) (i : nat) : Prop :=
  ∃ j e, j < i ∧ tr !! j = Some e ∧ is_callback e = true.

(** Every removal of the entry [operationId] from the cache comes after the
    invocation of a callback. *)
Definition removal_follows_callback (tr : list Event) (operationId : string) : Prop :=
  ∀ i, tr !! i = Some (CacheDelete operationId) → callback_before tr i.

End Trace.
End Trace.

(** ** A concrete setting

    Handlers are named by strings, an authorization provider is the value
    found in the success message, and an operation error is represented by
    the description of the native error. *)

Module Sample.
Import Bridge.

Definition collaborators : Collaborators := {|
  AccountSelector := string;
  AuthenticatorSelector := string;
  PinUserVerifier := string;
  BiometricUserVerifier := string;
  DevicePasscodeUserVerifier := string;
  FingerprintUserVerifier := string;
  AuthorizationProvider := JsValue;
  OperationError := JsValue;
  RequestHeaders := JsValue;
  OnSuccessMessage := option JsValue;
  authorizationProvider := λ m, m;
  OnSuccessMessage_fromJson := λ json,
    data ← Js.get json "authorizationProvider";
    mret (if truthy data then Some data else None);
  OperationErrorConverter_convert := λ error,
    match error with
    | JsObject props => default JsUndefined (Js.assoc "description" props)
    | _ => JsUndefined
    end
|}.

#[local] Existing Instance collaborators.

Definition returns {A} : OutOfBandAuthenticationImpl.Callback A := λ _, Normal ().
Definition throws {A} : OutOfBandAuthenticationImpl.Callback A :=
  λ _, Throw (JsObject [("description", JsString "thrown by the callback")]).

(** An authentication with only a PIN verifier and both callbacks. *)
Definition pinOnly (onSuccess : OutOfBandAuthenticationImpl.Callback (option JsValue))
  : OutOfBandAuthenticationImpl.t :=
  OutOfBandAuthenticationImpl.mk "op-42" None None (Some "pin") None None None
    (Some onSuccess) (Some returns) None.

(** The same without a success callback. *)
Definition pinOnlyNoOnSuccess : OutOfBandAuthenticationImpl.t :=
  OutOfBandAuthenticationImpl.mk "op-42" None None (Some "pin") None None None
    None (Some returns) None.

Definition otherOperation : UserInteractionPlatformOperationImpl.t :=
  UserInteractionPlatformOperationImpl.new "op-7" (Some "authenticators") None None
    None None (Some "pin").

(** One instance on the heap, the listener started, nothing cached. *)
Definition world (o : OutOfBandAuthenticationImpl.t) : World OutOfBandAuthenticationImpl.t :=
  mkWorld {[ 1%positive := o ]} ∅ true [].

(** The same with another operation in flight. *)
Definition busyWorld (o : OutOfBandAuthenticationImpl.t)
  : World OutOfBandAuthenticationImpl.t :=
  mkWorld {[ 1%positive := o ]} {[ "op-7" := otherOperation ]} true [].

Definition authorized : JsValue :=
  JsObject [("operationId", JsString "op-42");
            ("authorizationProvider", JsString "cookie")].

Definition tokenExpired : JsValue :=
  JsObject [("name", JsString "tokenExpired");
            ("description", JsString "The token has expired.")].

(** The native call is fulfilled with the authorization, or rejected with
    an expired token. *)
Definition fulfils : OutOfBandAuthenticationMessage.t → Settlement :=
  λ _, Fulfilled authorized.
Definition rejects : OutOfBandAuthenticationMessage.t → Settlement :=
  λ _, Rejected tokenExpired.

(** How often a run invoked [onSuccess] and [onError]. *)
Definition fired (run : World OutOfBandAuthenticationImpl.t * Completion unit)
  : nat * nat :=
  (Trace.count Trace.is_OnSuccess (trace run.1),
   Trace.count Trace.is_OnError (trace run.1)).

End Sample.

(** ** Error domains with a mapping table *)

Module ErrorTaxonomy.

(** Modelled from the spec: the converters of the domains that map the
    discriminator of a native error to a variant (out-of-band operation,
    initialization and the others) are not among the sources.  A native error
    carries a type discriminator, a description and optionally a cause. *)
Record NativeError := native {
  discriminator : string;
  description : string;
  cause : option string
}.

Section Domain.
Context {Variant : Type}.

(** An error of a domain: one of its variants, with the description and
    the optional cause every error class declares. *)
Record TypedError := typed {
  variant : Variant;
  typedDescription : string;
  typedCause : option string
}.

(** Modelled from the spec: the converter looks the discriminator up in the
    mapping table of the domain; a discriminator the table does not hold
    maps to the Unknown variant of the domain; description and cause are
    kept as they are. *)
Definition convert (table : gmap string Variant) (Unknown : Variant)
    (error : NativeError) : TypedError :=
  typed (default Unknown (table !! discriminator error))
    (description error) (cause error).

End Domain.

Arguments TypedError : clear implicits.

(** The variants of the out-of-band operation domain the sources declare. *)
Inductive OutOfBandOperationError : Type :=
| OutOfBandOperationTokenAlreadyRedeemed
| OutOfBandOperationTokenExpired
| OutOfBandOperationUnknownError.

(** The name of the class of a variant. *)
Definition OutOfBandOperationError_className (v : OutOfBandOperationError) : string :=
  match v with
  | OutOfBandOperationTokenAlreadyRedeemed => "OutOfBandOperationTokenAlreadyRedeemed"
  | OutOfBandOperationTokenExpired => "OutOfBandOperationTokenExpired"
  | OutOfBandOperationUnknownError => "OutOfBandOperationUnknownError"
  end.

(** The class of what the fingerprint converter constructs: the domain has
    this one class. *)
Definition FingerprintUserVerificationError_className
    (v : FingerprintUserVerificationError.t) : string :=
  "FingerprintUserVerificationError".

(** The Unknown variants of the taxonomy are the classes named
    ...UnknownError, as OutOfBandOperationUnknownError and
    InitializationUnknownError are. *)
Definition isUnknownVariant (className : string) : bool :=
  let n := String.length className in
  (12 <=? n) && String.eqb (String.substring (n - 12) 12 className) "UnknownError".

(** A mapping table of the out-of-band operation domain, with the
    discriminator the specification names. *)
Definition outOfBandTable : gmap string OutOfBandOperationError :=
  {[ "tokenExpired" := OutOfBandOperationTokenExpired ]}.

End ErrorTaxonomy.

(** ** The format of an AAID *)

Module AaidFormat.

Definition is_hex_digit (c : Ascii.ascii) : bool :=
  existsb (Ascii.eqb c) (String.list_ascii_of_string "0123456789ABCDEFabcdef").

(** A vendor or model code: four hexadecimal digits. *)
Definition is_code (s : string) : bool :=
  (String.length s =? 4) && forallb is_hex_digit (String.list_ascii_of_string s).

(** The format "V#M" the documentation of [Aaid] gives. *)
Definition well_formed (s : string) : bool :=
  (String.length s =? 9)
  && is_code (String.substring 0 4 s)
  && String.eqb (String.substring 4 1 s) "#"
  && is_code (String.substring 5 4 s).

Definition vendor (s : string) : string := String.substring 0 4 s.

End AaidFormat.

(** ** Calls of the setters, read as changes of the fields *)

Module Fluent.
Section Fluent.
Context `{!Collaborators}.
Import Bridge OutOfBandAuthenticationImpl.

(** The fields of the instance once the setter was called on one with the
    fields [o]. *)
Definition assigned (c : SetterCall) (o : t) : t :=
  match c with
  | call_accountSelector v =>
      mk (operationId o) (Some v) (_authenticatorSelector o) (_pinUserVerifier o)
        (_biometricUserVerifier o) (_devicePasscodeUserVerifier o)
        (_fingerprintUserVerifier o) (_onSuccess o) (_onError o) (httpRequestHeaders o)
  | call_authenticatorSelector v =>
      mk (operationId o) (_accountSelector o) (Some v) (_pinUserVerifier o)
        (_biometricUserVerifier o) (_devicePasscodeUserVerifier o)
        (_fingerprintUserVerifier o) (_onSuccess o) (_onError o) (httpRequestHeaders o)
  | call_pinUserVerifier v =>
      mk (operationId o) (_accountSelector o) (_authenticatorSelector o) (Some v)
        (_biometricUserVerifier o) (_devicePasscodeUserVerifier o)
        (_fingerprintUserVerifier o) (_onSuccess o) (_onError o) (httpRequestHeaders o)
  | call_biometricUserVerifier v =>
      mk (operationId o) (_accountSelector o) (_authenticatorSelector o)
        (_pinUserVerifier o) (Some v) (_devicePasscodeUserVerifier o)
        (_fingerprintUserVerifier o) (_onSuccess o) (_onError o) (httpRequestHeaders o)
  | call_devicePasscodeUserVerifier v =>
      mk (operationId o) (_accountSelector o) (_authenticatorSelector o)
        (_pinUserVerifier o) (_biometricUserVerifier o) (Some v)
        (_fingerprintUserVerifier o) (_onSuccess o) (_onError o) (httpRequestHeaders o)
  | call_fingerprintUserVerifier v =>
      mk (operationId o) (_accountSelector o) (_authenticatorSelector o)
        (_pinUserVerifier o) (_biometricUserVerifier o)
        (_devicePasscodeUserVerifier o) (Some v) (_onSuccess o) (_onError o)
        (httpRequestHeaders o)
  | call_onSuccess v =>
      mk (operationId o) (_accountSelector o) (_authenticatorSelector o)
        (_pinUserVerifier o) (_biometricUserVerifier o)
        (_devicePasscodeUserVerifier o) (_fingerprintUserVerifier o) (Some v)
        (_onError o) (httpRequestHeaders o)
  | call_onError v =>
      mk (operationId o) (_accountSelector o) (_authenticatorSelector o)
        (_pinUserVerifier o) (_biometricUserVerifier o)
        (_devicePasscodeUserVerifier o) (_fingerprintUserVerifier o) (_onSuccess o)
        (Some v) (httpRequestHeaders o)
  end.

(** The presence flag of the message that announces a field, if it has
    one. *)
Definition presence (f : Field) (m : OutOfBandAuthenticationMessage.t) : option bool :=
  match f with
  | F_accountSelector => Some (OutOfBandAuthenticationMessage.accountSelectorSet m)
  | F_authenticatorSelector =>
      Some (OutOfBandAuthenticationMessage.authenticatorSelectorSet m)
  | F_pinUserVerifier => Some (OutOfBandAuthenticationMessage.pinVerifierSet m)
  | F_biometricUserVerifier => Some (OutOfBandAuthenticationMessage.biometricVerifierSet m)
  | F_devicePasscodeUserVerifier =>
      Some (OutOfBandAuthenticationMessage.devicePasscodeVerifierSet m)
  | F_fingerprintUserVerifier =>
      Some (OutOfBandAuthenticationMessage.fingerprintVerifierSet m)
  | F_onSuccess => Some (OutOfBandAuthenticationMessage.onSuccessSet m)
  | F_onError => Some (OutOfBandAuthenticationMessage.onErrorSet m)
  | F_operationId | F_httpRequestHeaders => None
  end.

(** The instance the constructor makes: only the identifier is set. *)
Definition unconfigured (operationId : string) : t :=
  mk operationId None None None None None None None None None.

End Fluent.
End Fluent.

(** ** More of the concrete setting *)

Module Scenarios.
Import Bridge Sample.
#[local] Existing Instance collaborators.

(** An authentication with only a PIN verifier and the given callbacks. *)
Definition pinOnlyWith
    (onSuccess : OutOfBandAuthenticationImpl.Callback (option JsValue))
    (onError : OutOfBandAuthenticationImpl.Callback JsValue)
  : OutOfBandAuthenticationImpl.t :=
  OutOfBandAuthenticationImpl.mk "op-42" None None (Some "pin") None None None
    (Some onSuccess) (Some onError) None.

(** The same without an error callback. *)
Definition pinOnlyNoOnError : OutOfBandAuthenticationImpl.t :=
  OutOfBandAuthenticationImpl.mk "op-42" None None (Some "pin") None None None
    (Some returns) None None.

(** The native call is fulfilled with nothing, which does not decode. *)
Definition fulfilsWithNull : OutOfBandAuthenticationMessage.t → Settlement :=
  λ _, Fulfilled JsNull.

(** A decoder of device information that wants a name. *)
Definition deviceInformationFromJson (data : JsValue) : Completion string :=
  name ← Js.get data "name";
  match name with
  | JsString s => Normal s
  | _ => Throw (JsString "no name")
  end.

End Scenarios.

(** * Properties *)


Section ExecuteFacts.
Context `{!Collaborators}.
Import Bridge Trace OutOfBandAuthenticationImpl.

Implicit Types (w : World t) (this : Ref) (o : t) (tr : list Event).

Lemma bind_run {A B} (m : M t A) (f : A → M t B) w :
  (m ≫= f) w =
  match m w with
  | (w', Normal a) => f a w'
  | (w', Throw e) => (w', Throw e)
  end.
Proof. reflexivity. Qed.

Lemma deref_allocated w this o :
  objects w !! this = Some o → deref this w = (w, Normal o).
Proof. intros Hobj. unfold deref. by rewrite Hobj. Qed.

Lemma finish_run w this o :
  objects w !! this = Some o →
  finish this w =
  (mkWorld (objects w) (delete (operationId o) (operations w)) false
     (trace w ++ [ListenerStop; CacheDelete (operationId o)]),
   Normal ()).
Proof.
  intros Hobj. unfold finish. rewrite !bind_run. cbn.
  rewrite bind_run, (deref_allocated _ _ o) by exact Hobj.
  unfold PlatformOperationCache.delete. cbn.
  rewrite <- app_assoc. by destruct (listening w).
Qed.

Lemma optional_call_run {A} (callback : option (Callback A)) (ev : A → Event) a w o rest :
  optional_call callback ev a (finished w o rest) =
  match callback with
  | Some f => (finished w o (rest ++ [ev a]), f a)
  | None => (finished w o rest, Normal ())
  end.
Proof.
  destruct callback as [f|]; [|done].
  unfold optional_call, finished. rewrite bind_run. cbn.
  unfold lift. by rewrite <- !app_assoc.
Qed.

Lemma finished_finished w o rest rest' :
  finished (finished w o rest) o rest' =
  finished w o (rest ++ ListenerStop :: CacheDelete (operationId o) :: rest').
Proof.
  unfold finished. cbn. rewrite delete_delete_eq. by rewrite <- !app_assoc.
Qed.

Lemma onRejected_run w this o error :
  objects w !! this = Some o →
  onRejected this error w =
  match _onError o with
  | Some f =>
      (finished w o [OnError (OperationErrorConverter_convert error)],
       f (OperationErrorConverter_convert error))
  | None => (finished w o [], Normal ())
  end.
Proof.
  intros Hobj. unfold onRejected.
  rewrite bind_run, (finish_run _ _ o) by exact Hobj.
  fold (finished w o []). cbn zeta.
  rewrite bind_run, (deref_allocated _ _ o) by exact Hobj.
  rewrite optional_call_run. by destruct (_onError o).
Qed.

Lemma onFulfilled_run w this o data :
  objects w !! this = Some o →
  onFulfilled this data w =
  match OnSuccessMessage_fromJson data with
  | Throw e => (finished w o [], Throw e)
  | Normal successMessage =>
      match _onSuccess o with
      | Some f =>
          (finished w o [OnSuccess (authorizationProvider successMessage)],
           f (authorizationProvider successMessage))
      | None => (finished w o [], Normal ())
      end
  end.
Proof.
  intros Hobj. unfold onFulfilled.
  rewrite bind_run, (finish_run _ _ o) by exact Hobj.
  fold (finished w o []). rewrite bind_run. unfold lift at 1.
  destruct (OnSuccessMessage_fromJson data) as [successMessage|e]; [|done].
  rewrite bind_run, (deref_allocated _ _ o) by exact Hobj.
  rewrite optional_call_run. by destruct (_onSuccess o).
Qed.

Lemma execute_run w this o native :
  objects w !! this = Some o →
  execute this native w =
  settle this (native (encoded o))
    (mkWorld (objects w) (<[operationId o := cached o]> (operations w)) (listening w)
       (trace w ++ [CachePut (cached o); OobAuthenticate (encoded o)])).
Proof.
  intros Hobj. unfold execute.
  rewrite bind_run, (deref_allocated _ _ o) by exact Hobj.
  rewrite bind_run. unfold PlatformOperationCache.put at 1. cbn.
  rewrite bind_run. unfold emit at 1. cbn.
  by rewrite <- app_assoc.
Qed.

Lemma count_app kind tr tr' : count kind (tr ++ tr') = count kind tr + count kind tr'.
Proof. induction tr as [|e tr IH]; cbn; [done|]. rewrite IH. lia. Qed.

Local Ltac close_case :=
  rewrite ?finished_finished;
  eexists _, _; split; [reflexivity|]; cbn; repeat split; lia.

(** Every way [settle] can go: [finish] runs first, then the events
    [rest], among which each callback occurs at most once. *)
Lemma settle_run w this o settlement :
  objects w !! this = Some o →
  ∃ rest c,
    settle this settlement w = (finished w o rest, c) ∧
    count is_OnSuccess rest ≤ 1 ∧ count is_OnError rest ≤ 1 ∧
    count is_OobAuthenticate rest = 0.
Proof.
  intros Hobj. unfold settle, then_catch.
  assert (Hobj' : ∀ rest, objects (finished w o rest) !! this = Some o) by done.
  destruct settlement as [data|error].
  - rewrite (onFulfilled_run _ _ o) by exact Hobj.
    destruct (OnSuccessMessage_fromJson data) as [successMessage|e].
    + destruct (_onSuccess o) as [f|]; [|close_case].
      destruct (f _) as [[]|e]; [close_case|].
      rewrite (onRejected_run _ _ o) by apply Hobj'.
      destruct (_onError o); close_case.
    + rewrite (onRejected_run _ _ o) by apply Hobj'.
      destruct (_onError o); close_case.
  - rewrite (onRejected_run _ _ o) by exact Hobj.
    destruct (_onError o); close_case.
Qed.

Local Ltac agree_on_results :=
  intros; simplify_eq;
  repeat match goal with
         | H1 : ?x = _, H2 : ?x = _ |- _ => rewrite H1 in H2; simplify_eq
         end;
  try done; try (by eexists); auto.

Local Ltac close_run :=
  eexists _, _; split; [reflexivity|]; repeat split; agree_on_results.

(** Every way [execute] can go, with what follows [finish] in the two
    cases in which a configured callback is reached directly. *)
Lemma execute_shape w this o native :
  objects w !! this = Some o →
  ∃ rest c,
    execute this native w =
      (mkWorld (objects w) (delete (operationId o) (operations w)) false
         (trace w ++ CachePut (cached o) :: OobAuthenticate (encoded o) ::
            ListenerStop :: CacheDelete (operationId o) :: rest), c) ∧
    (∀ data successMessage f,
       native (encoded o) = Fulfilled data →
       OnSuccessMessage_fromJson data = Normal successMessage →
       _onSuccess o = Some f →
       ∃ rest', rest = OnSuccess (authorizationProvider successMessage) :: rest') ∧
    (∀ error f,
       native (encoded o) = Rejected error →
       _onError o = Some f →
       rest = [OnError (OperationErrorConverter_convert error)]).
Proof.
  intros Hobj. rewrite (execute_run _ _ o) by exact Hobj.
  set (w1 := mkWorld _ _ _ _).
  assert (Hobj1 : objects w1 !! this = Some o) by exact Hobj.
  assert (Hw1 : ∀ rest, finished w1 o rest =
    mkWorld (objects w) (delete (operationId o) (operations w)) false
      (trace w ++ CachePut (cached o) :: OobAuthenticate (encoded o) ::
         ListenerStop :: CacheDelete (operationId o) :: rest)).
  { intros rest. unfold finished, w1. cbn.
    by rewrite delete_insert_eq, <- app_assoc. }
  assert (Hobj' : ∀ rest, objects (finished w1 o rest) !! this = Some o) by done.
  unfold settle, then_catch.
  destruct (native (encoded o)) as [data|error].
  - rewrite (onFulfilled_run _ _ o) by exact Hobj1.
    destruct (OnSuccessMessage_fromJson data) as [successMessage|e] eqn:Hjson.
    + destruct (_onSuccess o) as [f|] eqn:HonSuccess.
      * destruct (f _) as [[]|e].
        -- rewrite Hw1. close_run.
        -- rewrite (onRejected_run _ _ o) by apply Hobj'.
           destruct (_onError o);
             rewrite finished_finished, Hw1; close_run.
      * rewrite Hw1. close_run.
    + rewrite (onRejected_run _ _ o) by apply Hobj'.
      destruct (_onError o);
        rewrite finished_finished, Hw1; close_run.
  - rewrite (onRejected_run _ _ o) by exact Hobj1.
    destruct (_onError o) as [f|] eqn:HonError; rewrite Hw1; close_run.
Qed.

Lemma delete_only_entry {A} (m : gmap string A) (k : string) :
  dom m ⊆ {[k]} → delete k m = ∅.
Proof.
  intros Hdom. apply map_eq. intros k'. rewrite lookup_empty.
  destruct (decide (k' = k)) as [->|Hk].
  - apply lookup_delete_eq.
  - rewrite lookup_delete_ne by done. apply not_elem_of_dom. set_solver.
Qed.

(** C1 (as the code has it). When the promise of the native call settles,
    [execute] first stops the listener, whatever else is cached, and removes
    the entry of the operation from the cache; only then does it invoke a
    callback: [onSuccess], if configured, with the decoded authorization
    provider when the promise is fulfilled, [onError], if configured, with
    the converted error when it is rejected.  Afterwards the cache has no
    entry for the operation and the listener is stopped; if no other
    operation was cached, the cache is empty. *)
Theorem execute_finishes_then_calls_back w this o native :
  objects w !! this = Some o →
  ∃ w' c rest,
    execute this native w = (w', c) ∧
    trace w' =
      trace w ++ CachePut (cached o) :: OobAuthenticate (encoded o) ::
        ListenerStop :: CacheDelete (operationId o) :: rest ∧
    listening w' = false ∧
    operations w' = delete (operationId o) (operations w) ∧
    (dom (operations w) ⊆ {[operationId o]} → operations w' = ∅) ∧
    (∀ data successMessage f,
       native (encoded o) = Fulfilled data →
       OnSuccessMessage_fromJson data = Normal successMessage →
       _onSuccess o = Some f →
       ∃ rest', rest = OnSuccess (authorizationProvider successMessage) :: rest') ∧
    (∀ error f,
       native (encoded o) = Rejected error →
       _onError o = Some f →
       rest = [OnError (OperationErrorConverter_convert error)]).
Proof.
  intros Hobj.
  destruct (execute_shape w this o native Hobj) as (rest & c & Hrun & Hsuccess & Herror).
  eexists _, c, rest. split; [exact Hrun|]. cbn.
  split; [reflexivity|]. split; [reflexivity|]. split; [reflexivity|].
  split; [apply delete_only_entry|]. by split.
Qed.

(** Whatever happens, [execute] invokes each callback at most once. *)
Lemma execute_fires_each_callback_at_most_once w this o native :
  objects w !! this = Some o →
  let tr' := trace (execute this native w).1 in
  count is_OnSuccess tr' ≤ count is_OnSuccess (trace w) + 1 ∧
  count is_OnError tr' ≤ count is_OnError (trace w) + 1.
Proof.
  intros Hobj tr'. subst tr'. rewrite (execute_run _ _ o) by exact Hobj.
  set (w1 := mkWorld _ _ _ _).
  destruct (settle_run w1 this o (native (encoded o)) Hobj)
    as (rest & c & -> & HS & HE & _).
  cbn. rewrite !count_app. cbn. lia.
Qed.

Local Ltac count_callbacks :=
  repeat split; intros; simplify_eq; try congruence; lia.

(** C2 (as the code has it). If both callbacks are configured and the
    success callback returns when it is invoked, then [execute] invokes
    exactly one of the two callbacks, once: [onError] when the promise of
    the native call is rejected, [onSuccess] when it is fulfilled with a
    message that decodes. *)
Theorem execute_fires_exactly_one_callback w this o native f g :
  objects w !! this = Some o →
  _onSuccess o = Some f →
  _onError o = Some g →
  (∀ data successMessage,
     native (encoded o) = Fulfilled data →
     OnSuccessMessage_fromJson data = Normal successMessage →
     f (authorizationProvider successMessage) = Normal ()) →
  let tr' := trace (execute this native w).1 in
  count is_OnSuccess tr' + count is_OnError tr' =
    count is_OnSuccess (trace w) + count is_OnError (trace w) + 1 ∧
  (∀ error, native (encoded o) = Rejected error →
     count is_OnError tr' = count is_OnError (trace w) + 1) ∧
  (∀ data successMessage,
     native (encoded o) = Fulfilled data →
     OnSuccessMessage_fromJson data = Normal successMessage →
     count is_OnSuccess tr' = count is_OnSuccess (trace w) + 1).
Proof.
  intros Hobj HonSuccess HonError Hreturns tr'. subst tr'.
  rewrite (execute_run _ _ o) by exact Hobj.
  set (w1 := mkWorld _ _ _ _).
  assert (Hobj1 : objects w1 !! this = Some o) by exact Hobj.
  assert (Hobj' : ∀ rest, objects (finished w1 o rest) !! this = Some o) by done.
  unfold settle, then_catch.
  destruct (native (encoded o)) as [data|error].
  - rewrite (onFulfilled_run _ _ o), HonSuccess by exact Hobj1.
    destruct (OnSuccessMessage_fromJson data) as [successMessage|e] eqn:Hjson.
    + rewrite (Hreturns data successMessage eq_refl Hjson).
      cbn. rewrite !count_app. cbn.
      count_callbacks.
    + rewrite (onRejected_run _ _ o), HonError by apply Hobj'.
      cbn. rewrite !count_app. cbn.
      count_callbacks.
  - rewrite (onRejected_run _ _ o), HonError by exact Hobj1.
    cbn. rewrite !count_app. cbn.
    count_callbacks.
Qed.

(** C3. The message [execute] sends has each presence flag true exactly
    when the matching selector, verifier or callback was configured, and the
    flag the call fixes is false; so with only a PIN verifier configured the
    PIN flag is true and every other capability flag is false. *)
Theorem execute_encodes_presence_flags w this o native :
  objects w !! this = Some o →
  ∃ message rest,
    trace (execute this native w).1 =
      trace w ++ CachePut (cached o) :: OobAuthenticate message :: rest ∧
    count is_OobAuthenticate rest = 0 ∧
    (OutOfBandAuthenticationMessage.accountSelectorSet message = true
       ↔ is_Some (_accountSelector o)) ∧
    (OutOfBandAuthenticationMessage.authenticatorSelectorSet message = true
       ↔ is_Some (_authenticatorSelector o)) ∧
    OutOfBandAuthenticationMessage.fixedFlag message = false ∧
    (OutOfBandAuthenticationMessage.pinVerifierSet message = true
       ↔ is_Some (_pinUserVerifier o)) ∧
    (OutOfBandAuthenticationMessage.biometricVerifierSet message = true
       ↔ is_Some (_biometricUserVerifier o)) ∧
    (OutOfBandAuthenticationMessage.devicePasscodeVerifierSet message = true
       ↔ is_Some (_devicePasscodeUserVerifier o)) ∧
    (OutOfBandAuthenticationMessage.fingerprintVerifierSet message = true
       ↔ is_Some (_fingerprintUserVerifier o)) ∧
    (OutOfBandAuthenticationMessage.onSuccessSet message = true
       ↔ is_Some (_onSuccess o)) ∧
    (OutOfBandAuthenticationMessage.onErrorSet message = true
       ↔ is_Some (_onError o)) ∧
    (is_Some (_pinUserVerifier o) →
     _accountSelector o = None → _authenticatorSelector o = None →
     _biometricUserVerifier o = None → _devicePasscodeUserVerifier o = None →
     _fingerprintUserVerifier o = None →
     OutOfBandAuthenticationMessage.capabilityFlags message =
       [false; false; false; true; false; false; false]).
Proof.
  intros Hobj. rewrite (execute_run _ _ o) by exact Hobj.
  set (w1 := mkWorld _ _ _ _).
  destruct (settle_run w1 this o (native (encoded o)) Hobj)
    as (rest & c & -> & _ & _ & Hnative).
  assert (Hdefined : ∀ A (x : option A), defined x = true ↔ is_Some x).
  { intros A [a|]; cbn; [by split; eauto|]. split; [done|]. by intros [a ?]. }
  exists (encoded o), (ListenerStop :: CacheDelete (operationId o) :: rest).
  split; [cbn; by rewrite <- app_assoc|].
  split; [exact Hnative|].
  repeat (split; [first [apply Hdefined | reflexivity]|]).
  intros [pin Hpin] Hacc Hauth Hbio Hpass Hfinger.
  unfold OutOfBandAuthenticationMessage.capabilityFlags. cbn.
  by rewrite Hpin, Hacc, Hauth, Hbio, Hpass, Hfinger.
Qed.

(** C8. [execute] uses the operation identifier of the instance as the
    correlation key: the operation it puts in the cache carries it and is
    found under it, the message it sends carries it too, and the native call
    is made once, after the operation is in the cache. *)
Theorem execute_correlates_by_operationId w this o native :
  objects w !! this = Some o →
  let w1 := (PlatformOperationCache.put (cached o) w).1 in
  UserInteractionPlatformOperationImpl.operationId (cached o) = operationId o ∧
  OutOfBandAuthenticationMessage.operationId (encoded o) = operationId o ∧
  operations w1 !! operationId o = Some (cached o) ∧
  execute this native w =
    (emit (OobAuthenticate (encoded o));; settle this (native (encoded o))) w1 ∧
  ∃ rest,
    trace (execute this native w).1 =
      trace w ++ CachePut (cached o) :: OobAuthenticate (encoded o) :: rest ∧
    count is_OobAuthenticate rest = 0.
Proof.
  intros Hobj w1. subst w1.
  split; [reflexivity|]. split; [reflexivity|].
  split; [cbn; apply lookup_insert_eq|].
  split.
  { rewrite (execute_run _ _ o) by exact Hobj.
    rewrite bind_run. unfold emit, PlatformOperationCache.put. cbn.
    by rewrite <- app_assoc. }
  rewrite (execute_run _ _ o) by exact Hobj.
  set (w1 := mkWorld _ _ _ _).
  destruct (settle_run w1 this o (native (encoded o)) Hobj)
    as (rest & c & -> & _ & _ & Hnative).
  exists (ListenerStop :: CacheDelete (operationId o) :: rest).
  split; [cbn; by rewrite <- app_assoc|exact Hnative].
Qed.

(** C10. Each of the eight setters assigns the field it is named after and
    no other: the operation identifier and every other field of the
    instance keep their value, nothing else in the world changes, and the
    setter returns the instance it was called on. *)
Theorem setters_assign_own_field_only w this o (c : SetterCall) :
  objects w !! this = Some o →
  ∃ o',
    invoke c this w =
      (mkWorld (<[this := o']> (objects w)) (operations w) (listening w) (trace w),
       Normal this) ∧
    holds_argument c o' ∧
    ∀ f, f ≠ own_field c → agree f o o'.
Proof.
  intros Hobj.
  destruct c; cbn [invoke];
    unfold accountSelector, authenticatorSelector, pinUserVerifier,
      biometricUserVerifier, devicePasscodeUserVerifier, fingerprintUserVerifier,
      onSuccess, onError;
    rewrite bind_run, (deref_allocated _ _ o) by exact Hobj;
    rewrite bind_run; unfold assign at 1; cbn;
    (eexists; split; [reflexivity|]; split; [reflexivity|]);
    intros [] Hf; cbn; congruence.
Qed.

End ExecuteFacts.

Section CacheFacts.
Context `{!Collaborators} {Obj : Type}.
Import Bridge.

Implicit Types (w : World Obj) (operation : UserInteractionPlatformOperationImpl.t).

(** C7. [put] always succeeds, and a [get] right after it with the
    identifier of the operation returns the operation that was put,
    whether or not the cache held an entry for that identifier before; the
    entries of the other identifiers stay as they were. *)
Theorem cache_put_then_get w operation (id : string) :
  UserInteractionPlatformOperationImpl.operationId operation = id →
  (PlatformOperationCache.put operation w).2 = Normal () ∧
  (PlatformOperationCache.put operation;; PlatformOperationCache.get id) w =
    ((PlatformOperationCache.put operation w).1, Normal (Some operation)) ∧
  dom (operations (PlatformOperationCache.put operation w).1) =
    {[id]} ∪ dom (operations w) ∧
  ∀ id', id' ≠ id →
    operations (PlatformOperationCache.put operation w).1 !! id' = operations w !! id'.
Proof.
  intros <-. split; [reflexivity|]. split; [|split].
  - unfold mbind, M_bind, PlatformOperationCache.put, PlatformOperationCache.get.
    cbn. by rewrite lookup_insert_eq.
  - cbn. apply dom_insert_L.
  - intros id' Hne. cbn. by rewrite lookup_insert_ne.
Qed.

End CacheFacts.

Section ConverterFacts.
Import FingerprintUserVerificationError.
Import FingerprintUserVerificationErrorConverter.

(** Whatever property the native error carries besides its description,
    cause and message, the fingerprint converter returns the same error,
    with the description and the cause of the native error. *)
Theorem fingerprint_convert_ignores_discriminator
    (props : list (string * JsValue)) (key : string) (discriminator : JsValue) :
  key ≠ "description" → key ≠ "cause" → key ≠ "message" →
  let error := JsObject ((key, discriminator) :: props) in
  ∃ v : FingerprintUserVerificationError.t,
    convert error = Normal v ∧
    Js.get error "description" = Normal (description v) ∧
    Js.get error "cause" = Normal (cause v) ∧
    convert (JsObject props) = Normal v.
Proof.
  intros Hd Hc Hm error. subst error.
  unfold convert. cbn.
  rewrite !decide_False by done.
  eexists. repeat split; reflexivity.
Qed.

(** C5. The converter is total on native errors: for every value but
    [undefined] and [null] it returns an error of the domain, never throws,
    and the error carries the description and the cause of its input; the
    constructor of an error class stores both as given. *)
Theorem fingerprint_convert_total (error : JsValue) :
  error ≠ JsUndefined → error ≠ JsNull →
  (∃ v : FingerprintUserVerificationError.t,
     convert error = Normal v ∧
     Js.get error "description" = Normal (description v) ∧
     Js.get error "cause" = Normal (cause v)) ∧
  ∀ d c,
    AuthCloudApiUserAlreadyRegisteredInAnotherServerError.description
      (AuthCloudApiUserAlreadyRegisteredInAnotherServerError.new d c) = d ∧
    AuthCloudApiUserAlreadyRegisteredInAnotherServerError.cause
      (AuthCloudApiUserAlreadyRegisteredInAnotherServerError.new d c) = c.
Proof.
  intros Hundefined Hnull. split; [|done].
  unfold convert.
  destruct error; try done; cbn; eexists; repeat split; reflexivity.
Qed.

End ConverterFacts.

Section DecoderFacts.
Context {DeviceInformation : Type}.
Context (DeviceInformation_fromJson : JsValue → Completion DeviceInformation).
Import LocalDeviceInformationMessage.

(** C6. Decoding an object without a deviceInformation property succeeds:
    the message has no device information and its operation identifier is
    the one of the object. *)
Theorem fromJson_without_deviceInformation (props : list (string * JsValue)) :
  Js.assoc "deviceInformation" props = None →
  ∃ message,
    fromJson DeviceInformation_fromJson (JsObject props) = Normal message ∧
    deviceInformation message = Falsy JsUndefined ∧
    Js.get (JsObject props) "operationId" = Normal (operationId message).
Proof.
  intros Habsent. unfold fromJson. cbn. rewrite Habsent. cbn.
  eexists. repeat split; reflexivity.
Qed.

End DecoderFacts.

Section AaidFacts.
Import Aaid.

(** C9. Every Aaid constant has an ordinal between 0 and 3 and both
    platform arrays have four elements, so [rawValue] never indexes out of
    range: on Android it is F1D0#000k and on iOS F1D0#100k, where k is the
    ordinal plus one, and on any other platform it is the empty string. *)
Theorem Aaid_rawValue_in_bounds (a : Aaid) :
  a ∈ constants →
  (0 ≤ ordinal a ≤ 3)%Z ∧
  length aaidAndroid = 4 ∧ length aaidiOS = 4 ∧
  rawValue android a = Some ("F1D0#000" +:+ pretty (ordinal a + 1)%Z) ∧
  rawValue ios a = Some ("F1D0#100" +:+ pretty (ordinal a + 1)%Z) ∧
  ∀ OS, OS ≠ ios → OS ≠ android → rawValue OS a = Some "".
Proof.
  intros Ha.
  assert (Hcases : a = PIN ∨ a = FINGERPRINT ∨ a = BIOMETRIC ∨ a = DEVICE_PASSCODE).
  { unfold constants in Ha. rewrite !elem_of_cons, elem_of_nil in Ha. tauto. }
  assert (Hdef : ∀ OS, OS ≠ ios → OS ≠ android → rawValue OS a = Some "").
  { intros [] ? ?; done. }
  destruct Hcases as [-> | [-> | [-> | ->]]];
    repeat split; try done; try (cbn; lia); vm_compute; reflexivity.
Qed.

Lemma Aaid_rawValue_in_bounds_witness :
  rawValue android BIOMETRIC = Some "F1D0#0003" ∧
  rawValue ios BIOMETRIC = Some "F1D0#1003".
Proof.
  destruct (Aaid_rawValue_in_bounds BIOMETRIC) as (_ & _ & _ & Hand & Hios & _).
  - exact (list_elem_of_lookup_2 constants 2 BIOMETRIC eq_refl).
  - split; [exact Hand | exact Hios].
Defined.

End AaidFacts.

(** * The properties at work in the concrete setting *)

Section Witnesses.
Import Bridge Trace Sample OutOfBandAuthenticationImpl.
#[local] Existing Instance collaborators.

(** The fluent chain builds the instance [pinOnly returns]. *)
Example fluent_chain :
  let chain : M t Ref :=
    this ← new "op-42";
    this ← pinUserVerifier this "pin";
    this ← onSuccess this returns;
    onError this returns in
  chain (mkWorld ∅ ∅ true []) = (world (pinOnly returns), Normal 1%positive).
Proof. vm_compute. reflexivity. Qed.

Lemma execute_finishes_then_calls_back_witness :
  let o := pinOnly returns in
  let w := world o in
  objects w !! 1%positive = Some o ∧
  ∃ w' c rest,
    execute 1%positive fulfils w = (w', c) ∧
    trace w' =
      CachePut (cached o) :: OobAuthenticate (encoded o) ::
        ListenerStop :: CacheDelete "op-42" :: rest ∧
    listening w' = false ∧
    operations w' = ∅ ∧
    ∃ rest', rest = OnSuccess (Some (JsString "cookie")) :: rest'.
Proof.
  intros o w. split; [reflexivity|].
  destruct (execute_finishes_then_calls_back w 1%positive o fulfils eq_refl)
    as (w' & c & rest & Hrun & Htrace & Hstopped & _ & Hempty & Hsuccess & _).
  exists w', c, rest. split; [exact Hrun|]. split; [exact Htrace|].
  split; [exact Hstopped|]. split.
  - apply Hempty. cbn. set_solver.
  - exact (Hsuccess authorized (Some (JsString "cookie")) returns
             eq_refl eq_refl eq_refl).
Defined.

(** With another operation in flight, the entry is removed before the
    callback is invoked, and the listener is stopped although the cache
    still holds the other operation. *)
Lemma execute_finishes_first_counterexample :
  let o := pinOnly returns in
  let w' := (execute 1%positive fulfils (busyWorld o)).1 in
  trace w' =
    [CachePut (cached o); OobAuthenticate (encoded o); ListenerStop;
     CacheDelete "op-42"; OnSuccess (Some (JsString "cookie"))] ∧
  ¬ removal_follows_callback (trace w') "op-42" ∧
  operations w' !! "op-7" = Some otherOperation ∧
  listening w' = false.
Proof.
  intros o w'.
  assert (Htrace : trace w' =
    [CachePut (cached o); OobAuthenticate (encoded o); ListenerStop;
     CacheDelete "op-42"; OnSuccess (Some (JsString "cookie"))])
    by (vm_compute; reflexivity).
  split; [exact Htrace|]. split; [|split; vm_compute; reflexivity].
  rewrite Htrace. intros Hclaim.
  destruct (Hclaim 3 eq_refl) as (j & e & Hj & He & Hcallback).
  destruct j as [|[|[|j]]]; [| | |lia]; cbn in He; simplify_eq; done.
Qed.

Lemma execute_fires_exactly_one_callback_witness :
  let o := pinOnly returns in
  fired (execute 1%positive fulfils (world o)) = (1, 0) ∧
  fired (execute 1%positive rejects (world o)) = (0, 1).
Proof.
  intros o. split.
  - destruct (execute_fires_exactly_one_callback (world o) 1%positive o fulfils
                returns returns eq_refl eq_refl eq_refl)
      as (Hone & _ & Hsuccess); [reflexivity|].
    specialize (Hsuccess authorized (Some (JsString "cookie")) eq_refl eq_refl).
    unfold fired. cbn in Hone, Hsuccess. f_equal; lia.
  - destruct (execute_fires_exactly_one_callback (world o) 1%positive o rejects
                returns returns eq_refl eq_refl eq_refl)
      as (Hone & Herror & _); [reflexivity|].
    specialize (Herror tokenExpired eq_refl).
    unfold fired. cbn in Hone, Herror. f_equal; lia.
Defined.

(** A success callback that throws is followed by the error callback, and
    nothing is invoked in place of a success callback that was not
    configured. *)
Lemma execute_fires_one_callback_counterexample :
  fired (execute 1%positive fulfils (world (pinOnly throws))) = (1, 1) ∧
  fired (execute 1%positive fulfils (world pinOnlyNoOnSuccess)) = (0, 0).
Proof. split; vm_compute; reflexivity. Qed.

Lemma execute_encodes_presence_flags_witness :
  let o := pinOnly returns in
  let w := world o in
  objects w !! 1%positive = Some o ∧
  ∃ message rest,
    trace (execute 1%positive fulfils w).1 =
      CachePut (cached o) :: OobAuthenticate message :: rest ∧
    OutOfBandAuthenticationMessage.capabilityFlags message =
      [false; false; false; true; false; false; false].
Proof.
  intros o w. split; [reflexivity|].
  destruct (execute_encodes_presence_flags w 1%positive o fulfils eq_refl)
    as (message & rest & Htrace & _ & _ & _ & _ & _ & _ & _ & _ & _ & _ & HpinOnly).
  exists message, rest. split; [exact Htrace|].
  apply HpinOnly; [by eexists|reflexivity..].
Defined.

Lemma execute_correlates_by_operationId_witness :
  let o := pinOnly returns in
  let w := busyWorld o in
  objects w !! 1%positive = Some o ∧
  operations (PlatformOperationCache.put (cached o) w).1 !! "op-42" = Some (cached o) ∧
  OutOfBandAuthenticationMessage.operationId (encoded o) = "op-42".
Proof.
  intros o w. split; [reflexivity|].
  destruct (execute_correlates_by_operationId w 1%positive o fulfils eq_refl)
    as (_ & Hmessage & Hcached & _).
  split; [exact Hcached|exact Hmessage].
Defined.

Lemma setters_assign_own_field_only_witness :
  let o := pinOnly returns in
  let w := world o in
  objects w !! 1%positive = Some o ∧
  ∃ o',
    @biometricUserVerifier collaborators 1%positive "biometric" w =
      (mkWorld (<[1%positive := o']> (objects w)) (operations w) (listening w) (trace w),
       Normal 1%positive) ∧
    _biometricUserVerifier o' = Some "biometric" ∧
    _pinUserVerifier o' = Some "pin" ∧
    operationId o' = "op-42".
Proof.
  intros o w. split; [reflexivity|].
  destruct (setters_assign_own_field_only w 1%positive o
              (@call_biometricUserVerifier collaborators "biometric") eq_refl)
    as (o' & Hrun & Hown & Hframe).
  exists o'. split; [exact Hrun|]. split; [exact Hown|]. split.
  - symmetry. by apply (Hframe F_pinUserVerifier).
  - symmetry. by apply (Hframe F_operationId).
Defined.

(** The operation put under "op-7" replaces the one cached under it. *)
Lemma cache_put_then_get_witness :
  let w := busyWorld (pinOnly returns) in
  let operation :=
    UserInteractionPlatformOperationImpl.new "op-7" None (Some "accounts") None None
      None (Some "pin") in
  operations w !! "op-7" = Some otherOperation ∧
  UserInteractionPlatformOperationImpl.operationId operation = "op-7" ∧
  (PlatformOperationCache.put operation;; PlatformOperationCache.get "op-7") w =
    ((PlatformOperationCache.put operation w).1, Normal (Some operation)).
Proof.
  intros w operation. split; [reflexivity|]. split; [reflexivity|].
  by destruct (cache_put_then_get w operation "op-7" eq_refl) as (_ & Hget & _).
Defined.

End Witnesses.

Section MoreWitnesses.
Import FingerprintUserVerificationError.
Import FingerprintUserVerificationErrorConverter.

Lemma fingerprint_convert_ignores_discriminator_witness :
  let props := [("description", JsString "Sensor unavailable.");
                ("cause", JsString "HardwareUnavailable")] in
  let error := JsObject (("name", JsString "SOMETHING_NEW") :: props) in
  convert error =
    Normal (new (JsString "Sensor unavailable.") (JsString "HardwareUnavailable")
              JsUndefined).
Proof.
  intros props error.
  destruct (fingerprint_convert_ignores_discriminator props "name"
              (JsString "SOMETHING_NEW")) as (v & Hv & _ & _ & Hprops);
    [done..|].
  fold error in Hv. rewrite Hv, <- Hprops. reflexivity.
Defined.

Lemma fingerprint_convert_total_witness :
  let error := JsObject [("description", JsString "Sensor unavailable.")] in
  ∃ v : FingerprintUserVerificationError.t,
    convert error = Normal v ∧
    description v = JsString "Sensor unavailable." ∧
    cause v = JsUndefined.
Proof.
  intros error.
  destruct (fingerprint_convert_total error) as [(v & Hv & Hd & Hc) _]; [done..|].
  exists v. split; [exact Hv|].
  cbn in Hd, Hc. by simplify_eq.
Defined.

Lemma fromJson_without_deviceInformation_witness :
  let props := [("operationId", JsString "op-42")] in
  ∃ message,
    LocalDeviceInformationMessage.fromJson (λ data : JsValue, Normal data)
      (JsObject props) = Normal message ∧
    LocalDeviceInformationMessage.deviceInformation message =
      LocalDeviceInformationMessage.Falsy JsUndefined ∧
    LocalDeviceInformationMessage.operationId message = JsString "op-42".
Proof.
  intros props.
  destruct (fromJson_without_deviceInformation
              (λ data : JsValue, Normal data) props eq_refl)
    as (message & Hmessage & Habsent & Hid).
  exists message. split; [exact Hmessage|]. split; [exact Habsent|].
  cbn in Hid. by simplify_eq.
Defined.

End MoreWitnesses.

(** * Further properties of the code *)

Section MoreDecoderFacts.
Context {DeviceInformation : Type}.
Import LocalDeviceInformationMessage.

Implicit Types (decode : JsValue → Completion DeviceInformation) (json : JsValue).

(** Decoding fails in two ways only: the payload is [undefined] or [null],
    and reading its properties throws a TypeError; or the device information
    it carries is truthy and its own decoder throws. *)
Theorem fromJson_fails_iff decode json (e : JsValue) :
  fromJson decode json = Throw e ↔
  ((json = JsUndefined ∨ json = JsNull) ∧ e = TypeError) ∨
  (∃ data,
     Js.get json "deviceInformation" = Normal data ∧
     truthy data = true ∧ decode data = Throw e).
Proof.
  unfold fromJson. split.
  - destruct json as [| |b|n|s|props]; cbn; intros Hthrow; try discriminate.
    + injection Hthrow as <-. left. eauto.
    + injection Hthrow as <-. left. eauto.
    + destruct (truthy _) eqn:Htruthy; cbn in Hthrow; [|discriminate].
      destruct (decode _) as [d|e'] eqn:Hdecode; cbn in Hthrow; [discriminate|].
      injection Hthrow as <-. right. eauto.
  - intros [[[-> | ->] ->] | (data & Hdata & Htruthy & Hdecode)]; [done..|].
    destruct json as [| |b|n|s|props]; cbn in Hdata; try discriminate;
      injection Hdata as <-; try discriminate.
    cbn. rewrite Htruthy. cbn. by rewrite Hdecode.
Qed.

(** A device information that is present but falsy ([null], [false], 0 or
    the empty string) is kept as it is, and its decoder plays no part:
    whatever the decoder, the message is the same. *)
Theorem fromJson_keeps_falsy decode decode' json (data : JsValue) :
  Js.get json "deviceInformation" = Normal data →
  truthy data = false →
  fromJson decode json = fromJson decode' json ∧
  ∃ message,
    fromJson decode json = Normal message ∧
    deviceInformation message = Falsy data.
Proof.
  intros Hdata Htruthy. unfold fromJson.
  destruct json; cbn in *; try discriminate; injection Hdata as <-;
    try (split; [reflexivity|]; eexists; split; reflexivity).
  rewrite Htruthy. cbn. split; [reflexivity|]. eexists; split; reflexivity.
Qed.

(** What a decoded message holds: the operation identifier of the payload
    as it is, not validated, and either the falsy device information of the
    payload or what its decoder made of a truthy one. *)
Theorem fromJson_sound decode json (message : t DeviceInformation) :
  fromJson decode json = Normal message →
  Js.get json "operationId" = Normal (operationId message) ∧
  ∃ data,
    Js.get json "deviceInformation" = Normal data ∧
    if truthy data
    then ∃ d, decode data = Normal d ∧ deviceInformation message = Converted d
    else deviceInformation message = Falsy data.
Proof.
  unfold fromJson.
  destruct json; cbn; try discriminate;
    try (intros [= <-]; split; [reflexivity|]; by exists JsUndefined).
  destruct (truthy _) eqn:Htruthy; cbn.
  - destruct (decode _) as [d|e] eqn:Hdecode; cbn; [|discriminate].
    intros [= <-]. split; [reflexivity|]. eexists. split; [reflexivity|].
    rewrite Htruthy. eauto.
  - intros [= <-]. split; [reflexivity|]. eexists. split; [reflexivity|].
    by rewrite Htruthy.
Qed.

End MoreDecoderFacts.

Section MoreConverterFacts.
Import FingerprintUserVerificationError.
Import FingerprintUserVerificationErrorConverter.

(** The converter throws exactly when the native error is [undefined] or
    [null], and what it throws then is the TypeError of the property
    access. *)
Theorem fingerprint_convert_throws_iff (error e : JsValue) :
  convert error = Throw e ↔ (error = JsUndefined ∨ error = JsNull) ∧ e = TypeError.
Proof.
  unfold convert. split.
  - destruct error; cbn; intros Hthrow; try discriminate;
      injection Hthrow as <-; eauto.
  - by intros [[-> | ->] ->].
Qed.

(** The converter looks at the description, the cause and the message of
    the native error and at nothing else: two error objects that agree on
    the three convert to the same error, whatever else they carry and in
    whatever order. *)
Theorem fingerprint_convert_reads_three_properties
    (props props' : list (string * JsValue)) :
  (∀ key, key ∈ ["description"; "cause"; "message"] →
     Js.assoc key props = Js.assoc key props') →
  convert (JsObject props) = convert (JsObject props') ∧
  ∃ v, convert (JsObject props) = Normal v ∧
       Js.get (JsObject props') "message" = Normal (message v).
Proof.
  intros Hagree. unfold convert. cbn.
  rewrite (Hagree "description"), (Hagree "cause"), (Hagree "message")
    by (rewrite !elem_of_cons; tauto).
  split; [reflexivity|]. eexists. split; reflexivity.
Qed.

End MoreConverterFacts.

Section MoreAaidFacts.
Import Aaid AaidFormat.

Implicit Types (a b : Aaid) (OS : PlatformOS).

Lemma constants_cases a :
  a ∈ constants → a = PIN ∨ a = FINGERPRINT ∨ a = BIOMETRIC ∨ a = DEVICE_PASSCODE.
Proof. unfold constants. rewrite !elem_of_cons, elem_of_nil. tauto. Qed.

(** On iOS and Android the raw value identifies the authenticator and the
    platform: two constants with the same raw value are the same constant
    on the same platform. *)
Theorem Aaid_rawValue_injective a b OS OS' :
  a ∈ constants → b ∈ constants →
  OS = ios ∨ OS = android → OS' = ios ∨ OS' = android →
  rawValue OS a = rawValue OS' b →
  a = b ∧ OS = OS'.
Proof.
  intros Ha Hb HOS HOS'.
  destruct (constants_cases a Ha) as [-> | [-> | [-> | ->]]];
    destruct (constants_cases b Hb) as [-> | [-> | [-> | ->]]];
    destruct HOS as [-> | ->]; destruct HOS' as [-> | ->];
    vm_compute; intros Heq; first [done | discriminate Heq].
Qed.

(** Every raw value of a constant on iOS and Android has the documented
    format: a vendor code and a model code of four hexadecimal digits each,
    separated by #; and the vendor is the same for all of them. *)
Theorem Aaid_rawValue_well_formed a OS :
  a ∈ constants → OS = ios ∨ OS = android →
  ∃ s, rawValue OS a = Some s ∧ well_formed s = true ∧ vendor s = "F1D0".
Proof.
  intros Ha HOS.
  destruct (constants_cases a Ha) as [-> | [-> | [-> | ->]]];
    destruct HOS as [-> | ->];
    eexists; (split; [reflexivity|]); split; vm_compute; reflexivity.
Qed.

End MoreAaidFacts.

Section MoreExecuteFacts.
Context `{!Collaborators}.
Import Bridge Trace OutOfBandAuthenticationImpl.

Implicit Types (w : World t) (this : Ref) (o : t).

(** The world [execute] has made of [w] when [finish] has run, followed by
    the events [rest]. *)
Lemma finished_after_put w o rest :
  finished
    (mkWorld (objects w) (<[operationId o := cached o]> (operations w)) (listening w)
       (trace w ++ [CachePut (cached o); OobAuthenticate (encoded o)])) o rest =
  mkWorld (objects w) (delete (operationId o) (operations w)) false
    (trace w ++ CachePut (cached o) :: OobAuthenticate (encoded o) ::
       ListenerStop :: CacheDelete (operationId o) :: rest).
Proof. unfold finished. cbn. by rewrite delete_insert_eq, <- app_assoc. Qed.

(** [execute] changes no object, the instance it runs on included, and no
    entry of the cache but the one of its own identifier, which is gone
    afterwards even if an operation with that identifier was cached
    before. *)
Theorem execute_leaves_the_rest w this o native :
  objects w !! this = Some o →
  let w' := (execute this native w).1 in
  objects w' = objects w ∧
  operations w' !! operationId o = None ∧
  ∀ id, id ≠ operationId o → operations w' !! id = operations w !! id.
Proof.
  intros Hobj w'. subst w'.
  destruct (execute_shape w this o native Hobj) as (rest & c & -> & _).
  cbn. split; [reflexivity|]. split; [apply lookup_delete_eq|].
  intros id Hid. by rewrite lookup_delete_ne.
Qed.

(** The promise of [execute] is rejected only with what the error callback
    itself throws: a rejection of the native call, a message that does not
    decode and a success callback that throws all end in the error callback
    or nowhere. *)
Theorem execute_throws_only_what_onError_throws w this o native (e : JsValue) :
  objects w !! this = Some o →
  (execute this native w).2 = Throw e →
  ∃ g operationError, _onError o = Some g ∧ g operationError = Throw e.
Proof.
  intros Hobj. rewrite (execute_run _ _ o) by exact Hobj.
  set (w1 := mkWorld _ _ _ _).
  assert (Hobj1 : objects w1 !! this = Some o) by exact Hobj.
  assert (Hobj' : ∀ rest, objects (finished w1 o rest) !! this = Some o) by done.
  unfold settle, then_catch.
  destruct (native (encoded o)) as [data|error].
  - rewrite (onFulfilled_run _ _ o) by exact Hobj1.
    destruct (OnSuccessMessage_fromJson data) as [successMessage|e'].
    + destruct (_onSuccess o) as [f|]; [|discriminate].
      destruct (f _) as [[]|e']; [discriminate|].
      rewrite (onRejected_run _ _ o) by apply Hobj'.
      destruct (_onError o) as [g|]; [|discriminate]. cbn. eauto.
    + rewrite (onRejected_run _ _ o) by apply Hobj'.
      destruct (_onError o) as [g|]; [|discriminate]. cbn. eauto.
  - rewrite (onRejected_run _ _ o) by exact Hobj1.
    destruct (_onError o) as [g|]; [|discriminate]. cbn. eauto.
Qed.

(** Without an error callback a rejection of the native call is dropped:
    [execute] cleans up, invokes nothing and its promise is fulfilled. *)
Theorem execute_drops_rejection_without_onError w this o native (error : JsValue) :
  objects w !! this = Some o →
  _onError o = None →
  native (encoded o) = Rejected error →
  execute this native w =
    (mkWorld (objects w) (delete (operationId o) (operations w)) false
       (trace w ++ [CachePut (cached o); OobAuthenticate (encoded o);
                    ListenerStop; CacheDelete (operationId o)]),
     Normal ()).
Proof.
  intros Hobj HonError Hnative. rewrite (execute_run _ _ o) by exact Hobj.
  unfold settle, then_catch. rewrite Hnative.
  rewrite (onRejected_run _ _ o), HonError by exact Hobj.
  by rewrite finished_after_put.
Qed.

(** A success message that does not decode goes the way of an error: the
    success callback is not invoked, [finish] runs a second time, and the
    error callback receives what the decoder threw, converted. *)
Theorem execute_reports_decoding_failure w this o native g (data e : JsValue) :
  objects w !! this = Some o →
  _onError o = Some g →
  native (encoded o) = Fulfilled data →
  OnSuccessMessage_fromJson data = Throw e →
  execute this native w =
    (mkWorld (objects w) (delete (operationId o) (operations w)) false
       (trace w ++ [CachePut (cached o); OobAuthenticate (encoded o);
                    ListenerStop; CacheDelete (operationId o);
                    ListenerStop; CacheDelete (operationId o);
                    OnError (OperationErrorConverter_convert e)]),
     g (OperationErrorConverter_convert e)).
Proof.
  intros Hobj HonError Hnative Hjson. rewrite (execute_run _ _ o) by exact Hobj.
  set (w1 := mkWorld _ _ _ _).
  assert (Hobj1 : objects w1 !! this = Some o) by exact Hobj.
  unfold settle, then_catch. rewrite Hnative.
  rewrite (onFulfilled_run _ _ o), Hjson by exact Hobj1.
  rewrite (onRejected_run _ _ o), HonError by exact Hobj1.
  rewrite finished_finished. unfold w1. by rewrite finished_after_put.
Qed.

(** A success callback that throws is followed by the error callback:
    [finish] runs a second time and the error callback receives what the
    success callback threw, converted. *)
Theorem execute_reports_what_onSuccess_throws
    w this o native f g (data e : JsValue) successMessage :
  objects w !! this = Some o →
  _onSuccess o = Some f →
  _onError o = Some g →
  native (encoded o) = Fulfilled data →
  OnSuccessMessage_fromJson data = Normal successMessage →
  f (authorizationProvider successMessage) = Throw e →
  execute this native w =
    (mkWorld (objects w) (delete (operationId o) (operations w)) false
       (trace w ++ [CachePut (cached o); OobAuthenticate (encoded o);
                    ListenerStop; CacheDelete (operationId o);
                    OnSuccess (authorizationProvider successMessage);
                    ListenerStop; CacheDelete (operationId o);
                    OnError (OperationErrorConverter_convert e)]),
     g (OperationErrorConverter_convert e)).
Proof.
  intros Hobj HonSuccess HonError Hnative Hjson Hthrows.
  rewrite (execute_run _ _ o) by exact Hobj.
  set (w1 := mkWorld _ _ _ _).
  assert (Hobj1 : objects w1 !! this = Some o) by exact Hobj.
  unfold settle, then_catch. rewrite Hnative.
  rewrite (onFulfilled_run _ _ o), Hjson, HonSuccess, Hthrows by exact Hobj1.
  rewrite (onRejected_run _ _ o), HonError by exact Hobj1.
  rewrite finished_finished. unfold w1. by rewrite finished_after_put.
Qed.

End MoreExecuteFacts.

Section FluentFacts.
Context `{!Collaborators}.
Import Bridge Trace OutOfBandAuthenticationImpl Fluent.

Implicit Types (w : World t) (this : Ref) (o : t) (c : SetterCall).

Lemma invoke_run w this o c :
  objects w !! this = Some o →
  invoke c this w =
  (mkWorld (<[this := assigned c o]> (objects w)) (operations w) (listening w) (trace w),
   Normal this).
Proof.
  intros Hobj.
  destruct c; cbn [invoke];
    unfold accountSelector, authenticatorSelector, pinUserVerifier,
      biometricUserVerifier, devicePasscodeUserVerifier, fingerprintUserVerifier,
      onSuccess, onError;
    rewrite bind_run, (deref_allocated _ _ o) by exact Hobj;
    rewrite bind_run; unfold assign at 1; reflexivity.
Qed.

Lemma invoke_dangling w this c :
  objects w !! this = None → invoke c this w = (w, Throw TypeError).
Proof.
  intros Hobj.
  destruct c; cbn [invoke];
    unfold accountSelector, authenticatorSelector, pinUserVerifier,
      biometricUserVerifier, devicePasscodeUserVerifier, fingerprintUserVerifier,
      onSuccess, onError;
    rewrite bind_run; unfold deref; by rewrite Hobj.
Qed.

Lemma invoke_twice w this o c c' :
  objects w !! this = Some o →
  (this' ← invoke c this; invoke c' this') w =
  (mkWorld (<[this := assigned c' (assigned c o)]> (objects w)) (operations w)
     (listening w) (trace w),
   Normal this).
Proof.
  intros Hobj. rewrite bind_run, (invoke_run _ _ o) by exact Hobj.
  rewrite (invoke_run _ _ (assigned c o)) by (cbn; apply lookup_insert_eq).
  cbn. by rewrite insert_insert_eq.
Qed.

(** Setters of different fields commute: chained in either order they
    leave the same instance. *)
Theorem setters_commute w this c c' :
  own_field c ≠ own_field c' →
  (this' ← invoke c this; invoke c' this') w =
  (this' ← invoke c' this; invoke c this') w.
Proof.
  intros Hfields. destruct (objects w !! this) as [o|] eqn:Hobj.
  - rewrite !(invoke_twice _ _ o) by exact Hobj.
    do 3 f_equal. destruct c, c'; cbn in Hfields; done.
  - by rewrite !bind_run, !invoke_dangling.
Qed.

(** A setter called again overwrites: after two calls of the same setter the
    instance is as if only the second had been made. *)
Theorem setter_last_call_wins w this c c' :
  own_field c = own_field c' →
  (this' ← invoke c this; invoke c' this') w = invoke c' this w.
Proof.
  intros Hfields. destruct (objects w !! this) as [o|] eqn:Hobj.
  - rewrite (invoke_twice _ _ o), (invoke_run _ _ o) by exact Hobj.
    do 3 f_equal. destruct c, c'; cbn in Hfields; done.
  - by rewrite !bind_run, !invoke_dangling.
Qed.

(** A setter followed by [execute]: the message sent announces the field of
    the setter as present, announces every other field as it would have
    without the call, and carries the same operation identifier. *)
Theorem setter_then_execute_announces w this o c native :
  objects w !! this = Some o →
  ∃ o' rest,
    holds_argument c o' ∧
    trace ((this' ← invoke c this; execute this' native) w).1 =
      trace w ++ CachePut (cached o') :: OobAuthenticate (encoded o') :: rest ∧
    presence (own_field c) (encoded o') = Some true ∧
    (∀ f, f ≠ own_field c → presence f (encoded o') = presence f (encoded o)) ∧
    OutOfBandAuthenticationMessage.operationId (encoded o') = operationId o.
Proof.
  intros Hobj. exists (assigned c o).
  rewrite bind_run, (invoke_run _ _ o) by exact Hobj.
  set (w1 := mkWorld _ _ _ _).
  assert (Hobj1 : objects w1 !! this = Some (assigned c o))
    by (cbn; apply lookup_insert_eq).
  destruct (execute_shape w1 this (assigned c o) native Hobj1)
    as (rest & completion & -> & _).
  eexists. split; [by destruct c|]. split; [reflexivity|].
  split; [by destruct c|]. split; [|by destruct c].
  intros f Hf. destruct c, f; cbn in Hf; done.
Qed.

(** The constructor makes a new instance with nothing configured and leaves
    the others alone; [execute] right after it sends a message with the
    identifier given to the constructor and every presence flag false. *)
Theorem new_then_execute_announces_nothing w (operationId : string) native :
  ∃ this rest,
    objects w !! this = None ∧
    new operationId w =
      (mkWorld (<[this := unconfigured operationId]> (objects w)) (operations w)
         (listening w) (trace w),
       Normal this) ∧
    trace ((this' ← new operationId; execute this' native) w).1 =
      trace w ++
        CachePut (cached (unconfigured operationId)) ::
        OobAuthenticate
          (OutOfBandAuthenticationMessage.new operationId false false false false
             false false false false false None) :: rest.
Proof.
  set (this := fresh (dom (objects w))).
  assert (Hfresh : objects w !! this = None)
    by (apply not_elem_of_dom, is_fresh).
  rewrite bind_run. unfold new, alloc. fold this.
  fold (unconfigured operationId).
  set (w1 := mkWorld _ _ _ _).
  assert (Hobj1 : objects w1 !! this = Some (unconfigured operationId))
    by (cbn; apply lookup_insert_eq).
  destruct (execute_shape w1 this (unconfigured operationId) native Hobj1)
    as (rest & completion & -> & _).
  exists this. eexists. split; [exact Hfresh|]. split; reflexivity.
Qed.

End FluentFacts.

(** * The further properties at work in the concrete setting *)

Section MoreWitnessesOfDecoding.
Import Scenarios.

Lemma fromJson_keeps_falsy_witness :
  let json := JsObject [("operationId", JsString "op-42");
                        ("deviceInformation", JsNull)] in
  ∃ message,
    LocalDeviceInformationMessage.fromJson deviceInformationFromJson json =
      Normal message ∧
    LocalDeviceInformationMessage.deviceInformation message =
      LocalDeviceInformationMessage.Falsy JsNull.
Proof.
  intros json.
  by destruct (fromJson_keeps_falsy deviceInformationFromJson
                 deviceInformationFromJson json JsNull eq_refl eq_refl)
    as [_ Hmessage].
Defined.

Lemma fromJson_sound_witness :
  let json := JsObject [("operationId", JsString "op-42");
                        ("deviceInformation", JsObject [("name", JsString "phone")])] in
  let message :=
    LocalDeviceInformationMessage.new (JsString "op-42")
      (LocalDeviceInformationMessage.Converted "phone") in
  LocalDeviceInformationMessage.fromJson deviceInformationFromJson json =
    Normal message ∧
  Js.get json "operationId" = Normal (JsString "op-42").
Proof.
  intros json message. split; [reflexivity|].
  by destruct (fromJson_sound deviceInformationFromJson json message eq_refl)
    as [Hid _].
Defined.

Lemma fingerprint_convert_reads_three_properties_witness :
  let props := [("name", JsString "SOMETHING_NEW");
                ("description", JsString "Sensor unavailable.");
                ("message", JsString "failed")] in
  let props' := [("message", JsString "failed");
                 ("description", JsString "Sensor unavailable.")] in
  FingerprintUserVerificationErrorConverter.convert (JsObject props) =
  FingerprintUserVerificationErrorConverter.convert (JsObject props').
Proof.
  intros props props'.
  destruct (fingerprint_convert_reads_three_properties props props') as [Hsame _];
    [|exact Hsame].
  intros key Hkey. rewrite !elem_of_cons, elem_of_nil in Hkey.
  destruct Hkey as [-> | [-> | [-> | []]]]; reflexivity.
Defined.

Lemma Aaid_rawValue_injective_witness :
  Aaid.rawValue android Aaid.BIOMETRIC = Aaid.rawValue android Aaid.BIOMETRIC ∧
  Aaid.BIOMETRIC = Aaid.BIOMETRIC ∧ android = android.
Proof.
  split; [reflexivity|].
  apply (Aaid_rawValue_injective Aaid.BIOMETRIC Aaid.BIOMETRIC android android);
    [exact (list_elem_of_lookup_2 Aaid.constants 2 Aaid.BIOMETRIC eq_refl)
    |exact (list_elem_of_lookup_2 Aaid.constants 2 Aaid.BIOMETRIC eq_refl)
    |by right|by right|reflexivity].
Defined.

Lemma Aaid_rawValue_well_formed_witness :
  ∃ s, Aaid.rawValue ios Aaid.FINGERPRINT = Some s ∧
       AaidFormat.well_formed s = true ∧ AaidFormat.vendor s = "F1D0".
Proof.
  apply (Aaid_rawValue_well_formed Aaid.FINGERPRINT ios); [|by left].
  exact (list_elem_of_lookup_2 Aaid.constants 1 Aaid.FINGERPRINT eq_refl).
Defined.

End MoreWitnessesOfDecoding.

Section MoreWitnessesOfExecute.
Import Bridge Trace Sample Scenarios OutOfBandAuthenticationImpl Fluent.
#[local] Existing Instance collaborators.

Lemma execute_leaves_the_rest_witness :
  let o := pinOnly returns in
  let w := busyWorld o in
  let w' := (execute 1%positive fulfils w).1 in
  objects w !! 1%positive = Some o ∧
  objects w' = objects w ∧
  operations w' !! "op-42" = None ∧
  operations w' !! "op-7" = Some otherOperation.
Proof.
  intros o w w'. split; [reflexivity|].
  destruct (execute_leaves_the_rest w 1%positive o fulfils eq_refl)
    as (Hobjects & Hgone & Hothers).
  split; [exact Hobjects|]. split; [exact Hgone|].
  subst w'. cbn zeta. by rewrite (Hothers "op-7").
Defined.

Lemma execute_throws_only_what_onError_throws_witness :
  let o := pinOnlyWith returns throws in
  let e := JsObject [("description", JsString "thrown by the callback")] in
  (execute 1%positive rejects (world o)).2 = Throw e ∧
  ∃ g operationError, _onError o = Some g ∧ g operationError = Throw e.
Proof.
  intros o e. split; [reflexivity|].
  exact (execute_throws_only_what_onError_throws (world o) 1%positive o rejects e
           eq_refl eq_refl).
Defined.

Lemma execute_drops_rejection_without_onError_witness :
  let o := pinOnlyNoOnError in
  let w := world o in
  execute 1%positive rejects w =
    (mkWorld (objects w) ∅ false
       [CachePut (cached o); OobAuthenticate (encoded o);
        ListenerStop; CacheDelete "op-42"],
     Normal ()).
Proof.
  intros o w.
  rewrite (execute_drops_rejection_without_onError w 1%positive o rejects tokenExpired
             eq_refl eq_refl eq_refl).
  vm_compute. reflexivity.
Defined.

Lemma execute_reports_decoding_failure_witness :
  let o := pinOnly returns in
  trace (execute 1%positive fulfilsWithNull (world o)).1 =
    [CachePut (cached o); OobAuthenticate (encoded o);
     ListenerStop; CacheDelete "op-42"; ListenerStop; CacheDelete "op-42";
     OnError JsUndefined].
Proof.
  intros o.
  by rewrite (execute_reports_decoding_failure (world o) 1%positive o fulfilsWithNull
                returns JsNull TypeError eq_refl eq_refl eq_refl eq_refl).
Defined.

Lemma execute_reports_what_onSuccess_throws_witness :
  let o := pinOnly throws in
  trace (execute 1%positive fulfils (world o)).1 =
    [CachePut (cached o); OobAuthenticate (encoded o);
     ListenerStop; CacheDelete "op-42"; OnSuccess (Some (JsString "cookie"));
     ListenerStop; CacheDelete "op-42";
     OnError (JsString "thrown by the callback")].
Proof.
  intros o.
  by rewrite (execute_reports_what_onSuccess_throws (world o) 1%positive o fulfils
                throws returns authorized
                (JsObject [("description", JsString "thrown by the callback")])
                (Some (JsString "cookie"))
                eq_refl eq_refl eq_refl eq_refl eq_refl eq_refl).
Defined.

Lemma execute_fires_each_callback_at_most_once_witness :
  let o := pinOnly throws in
  let tr' := trace (execute 1%positive fulfils (world o)).1 in
  count is_OnSuccess tr' ≤ 1 ∧ count is_OnError tr' ≤ 1.
Proof.
  intros o tr'.
  exact (execute_fires_each_callback_at_most_once (world o) 1%positive o fulfils
           eq_refl).
Defined.

Lemma setters_commute_witness :
  let w := world (pinOnly returns) in
  (this ← @biometricUserVerifier collaborators 1%positive "biometric";
   @accountSelector collaborators this "accounts") w =
  (this ← @accountSelector collaborators 1%positive "accounts";
   @biometricUserVerifier collaborators this "biometric") w.
Proof.
  intros w.
  apply (setters_commute w 1%positive
           (@call_biometricUserVerifier collaborators "biometric")
           (@call_accountSelector collaborators "accounts")).
  discriminate.
Defined.

Lemma setter_last_call_wins_witness :
  let w := world (pinOnly returns) in
  (this ← @pinUserVerifier collaborators 1%positive "first";
   @pinUserVerifier collaborators this "second") w =
  @pinUserVerifier collaborators 1%positive "second" w.
Proof.
  intros w.
  apply (setter_last_call_wins w 1%positive
           (@call_pinUserVerifier collaborators "first")
           (@call_pinUserVerifier collaborators "second")).
  reflexivity.
Defined.

Lemma setter_then_execute_announces_witness :
  let o := pinOnly returns in
  let w := world o in
  objects w !! 1%positive = Some o ∧
  ∃ o' rest,
    _biometricUserVerifier o' = Some "biometric" ∧
    trace ((this ← @biometricUserVerifier collaborators 1%positive "biometric";
            execute this fulfils) w).1 =
      CachePut (cached o') :: OobAuthenticate (encoded o') :: rest ∧
    OutOfBandAuthenticationMessage.biometricVerifierSet (encoded o') = true ∧
    OutOfBandAuthenticationMessage.pinVerifierSet (encoded o') = true ∧
    OutOfBandAuthenticationMessage.accountSelectorSet (encoded o') = false.
Proof.
  intros o w. split; [reflexivity|].
  destruct (setter_then_execute_announces w 1%positive o
              (@call_biometricUserVerifier collaborators "biometric") fulfils eq_refl)
    as (o' & rest & Hholds & Htrace & Hown & Hothers & _).
  exists o', rest. split; [exact Hholds|]. split; [exact Htrace|].
  split; [by injection Hown|].
  split.
  - specialize (Hothers F_pinUserVerifier). cbn in Hothers.
    by injection (Hothers ltac:(discriminate)).
  - specialize (Hothers F_accountSelector). cbn in Hothers.
    by injection (Hothers ltac:(discriminate)).
Defined.

End MoreWitnessesOfExecute.

(** * Unrecognised discriminators *)

Section TaxonomyFacts.
Import ErrorTaxonomy.

(** C4 (as the code has it). In a domain whose converter has a mapping
    table, a native error whose discriminator the table does not hold
    converts to the Unknown variant of the domain, with its description and
    cause as they are.  The fingerprint converter has no mapping table and
    its domain no Unknown variant: for every native error object, whatever
    discriminator it carries, it returns an error of the one class
    FingerprintUserVerificationError, with the description and the cause of
    the native error as they are. *)
Theorem convert_unrecognised_discriminator
    {Variant : Type} (table : gmap string Variant) (Unknown : Variant)
    (error : NativeError)
    (props : list (string * JsValue)) (key : string) (value : JsValue) :
  table !! discriminator error = None →
  key ≠ "description" → key ≠ "cause" → key ≠ "message" →
  ErrorTaxonomy.convert table Unknown error =
    typed Unknown (description error) (cause error) ∧
  let nativeError := JsObject ((key, value) :: props) in
  ∃ v : FingerprintUserVerificationError.t,
    FingerprintUserVerificationErrorConverter.convert nativeError = Normal v ∧
    FingerprintUserVerificationError_className v = "FingerprintUserVerificationError" ∧
    Js.get nativeError "description" =
      Normal (FingerprintUserVerificationError.description v) ∧
    Js.get nativeError "cause" = Normal (FingerprintUserVerificationError.cause v) ∧
    FingerprintUserVerificationErrorConverter.convert (JsObject props) = Normal v.
Proof.
  intros Hunrecognised Hd Hc Hm. split.
  - unfold ErrorTaxonomy.convert. by rewrite Hunrecognised.
  - intros nativeError.
    destruct (fingerprint_convert_ignores_discriminator props key value Hd Hc Hm)
      as (v & Hv & Hdescription & Hcause & Hprops).
    exists v. by repeat split.
Qed.

Lemma convert_unrecognised_discriminator_witness :
  let error := native "somethingNew" "The token is odd." (Some "Server") in
  let nativeError :=
    JsObject [("name", JsString "somethingNew");
              ("description", JsString "Sensor unavailable.");
              ("cause", JsString "HardwareUnavailable")] in
  outOfBandTable !! "somethingNew" = None ∧
  ErrorTaxonomy.convert outOfBandTable OutOfBandOperationUnknownError error =
    typed OutOfBandOperationUnknownError "The token is odd." (Some "Server") ∧
  FingerprintUserVerificationErrorConverter.convert nativeError =
    Normal (FingerprintUserVerificationError.new (JsString "Sensor unavailable.")
              (JsString "HardwareUnavailable") JsUndefined).
Proof.
  intros error nativeError. split; [reflexivity|].
  destruct (convert_unrecognised_discriminator outOfBandTable
              OutOfBandOperationUnknownError error
              [("description", JsString "Sensor unavailable.");
               ("cause", JsString "HardwareUnavailable")]
              "name" (JsString "somethingNew"))
    as [Hunknown (v & Hv & _ & _ & _ & Hprops)]; [reflexivity|done..|].
  split; [exact Hunknown|].
  cbn zeta in Hv. fold nativeError in Hv. rewrite Hv, <- Hprops. reflexivity.
Defined.

(** For a discriminator no table holds, the fingerprint converter returns an
    error of the class FingerprintUserVerificationError, which is not an
    Unknown variant, where the converter of a domain with a mapping table
    returns the Unknown variant of the domain. *)
Lemma fingerprint_convert_unknown_variant_counterexample :
  let nativeError :=
    JsObject [("name", JsString "somethingNew");
              ("description", JsString "Sensor unavailable.");
              ("cause", JsString "HardwareUnavailable")] in
  (∃ v : FingerprintUserVerificationError.t,
     FingerprintUserVerificationErrorConverter.convert nativeError = Normal v ∧
     FingerprintUserVerificationError_className v = "FingerprintUserVerificationError" ∧
     isUnknownVariant (FingerprintUserVerificationError_className v) = false) ∧
  isUnknownVariant
    (OutOfBandOperationError_className
       (variant (ErrorTaxonomy.convert outOfBandTable OutOfBandOperationUnknownError
                   (native "somethingNew" "Sensor unavailable."
                      (Some "HardwareUnavailable"))))) = true.
Proof.
  intros nativeError. split.
  - eexists. split; [reflexivity|]. split; vm_compute; reflexivity.
  - vm_compute. reflexivity.
Qed.

End TaxonomyFacts.
